(** * TastyBytes analytics dashboard (app_snowflake_aula.py)

    A shallow embedding of the dashboard script: the dataframe operations
    it applies to the menu result set (filter, aggregates, top 10, CSV
    export), the two Streamlit caches that wrap [init_connection] and
    [run_query], and the control flow of one script run.

    Conventions.
    - Python [str] values are sequences of Unicode code points ([list Z]).
    - A float64 cell is an exact rational ([Q]); a missing value (SQL NULL,
      pandas NaN/None) is [None].  Comparisons with a missing value are
      false, as in pandas; the rounding of float additions is not modelled.
    - The warehouse, the driver and the clock are external: their answers
      are read from a [World]. *)

From Stdlib Require Import ZArith QArith List Bool Lia Lqa Permutation Sorted.
From stdpp Require Import strings gmap.
Import ListNotations.

Local Open Scope Z_scope.

(** ** Text *)

Abbreviation str := (list Z).

(** [py "abc"] is the Python string literal 'abc' (ASCII literals only). *)
Definition py (s : string) : str :=
  List.map (fun a => Z.of_N (Ascii.N_of_ascii a)) (String.list_ascii_of_string s).

Fixpoint str_eqb (a b : str) : bool :=
  match a, b with
  | [], [] => true
  | x :: a', y :: b' => (x =? y) && str_eqb a' b'
  | _, _ => false
  end.

(** ** Pandas: the dataframe of the menu query *)

Module Pandas.

(** One row of the frame returned by the dashboard query; the field names
    are the column labels of the SELECT list. *)
Record Row := {
  MENU_ITEM_NAME : option str;
  ITEM_CATEGORY : option str;
  ITEM_SUBCATEGORY : option str;
  COST_OF_GOODS_USD : option Q;
  SALE_PRICE_USD : option Q;
  PROFIT : option Q;
  MARGIN_PERCENT : option Q
}.

Definition DataFrame := list Row.

(** [df[c]]: a column as a Series, row by row. *)
Definition col {A} (c : Row -> A) (df : DataFrame) : list A := List.map c df.

(** Equality of two object cells, as the hash lookup of [isin] sees it:
    a missing value matches a missing value. *)
Definition cell_eqb (a b : option str) : bool :=
  match a, b with
  | None, None => true
  | Some x, Some y => str_eqb x y
  | _, _ => false
  end.

(** [Series.isin(values)] *)
Definition isin (s : list (option str)) (values : list (option str)) : list bool :=
  List.map (fun v => existsb (cell_eqb v) values) s.

(** [Series >= x] and [Series <= x] on a float column. *)
Definition ge (s : list (option Q)) (x : Q) : list bool :=
  List.map (fun v => match v with Some p => Qle_bool x p | None => false end) s.

Definition le (s : list (option Q)) (x : Q) : list bool :=
  List.map (fun v => match v with Some p => Qle_bool p x | None => false end) s.

(** [a & b] on boolean Series of one frame. *)
Definition and_ (a b : list bool) : list bool :=
  List.map (fun p => fst p && snd p) (combine a b).

(** [df[mask]]: boolean indexing. *)
Definition getitem_mask (df : DataFrame) (mask : list bool) : DataFrame :=
  List.map fst (List.filter snd (combine df mask)).

(** [len(df)] *)
Definition len (df : DataFrame) : nat := length df.

(** [Series.sum()] of a float column: missing values are skipped. *)
Fixpoint sum (s : list (option Q)) : Q :=
  match s with
  | [] => 0%Q
  | Some p :: s' => (p + sum s')%Q
  | None :: s' => sum s'
  end.

(** [Series.unique()]: the distinct values, in order of first appearance. *)
Fixpoint unique (s : list (option str)) : list (option str) :=
  match s with
  | [] => []
  | v :: s' => v :: List.filter (fun w => negb (cell_eqb v w)) (unique s')
  end.

(** A frame of any query: column labels and rows of cells. *)
Inductive Cell :=
| NA
| Text (s : str)
| Float (q : Q).

Record Frame := { columns : list str; rows : list (list Cell) }.

Definition object_cell (v : option str) : Cell :=
  match v with Some s => Text s | None => NA end.

Definition float_cell (v : option Q) : Cell :=
  match v with Some q => Float q | None => NA end.

Definition menu_columns : list str :=
  [py "MENU_ITEM_NAME"; py "ITEM_CATEGORY"; py "ITEM_SUBCATEGORY";
   py "COST_OF_GOODS_USD"; py "SALE_PRICE_USD"; py "PROFIT"; py "MARGIN_PERCENT"].

Definition row_cells (r : Row) : list Cell :=
  [object_cell (MENU_ITEM_NAME r); object_cell (ITEM_CATEGORY r);
   object_cell (ITEM_SUBCATEGORY r); float_cell (COST_OF_GOODS_USD r);
   float_cell (SALE_PRICE_USD r); float_cell (PROFIT r);
   float_cell (MARGIN_PERCENT r)].

(** The menu frame seen as a frame of cells. *)
Definition to_frame (df : DataFrame) : Frame :=
  {| columns := menu_columns; rows := List.map row_cells df |}.

End Pandas.

(** ** Tab 2: the data explorer *)

Module Explorer.
Import Pandas.

(** Lines 242-247: the frame kept by the three widgets. *)
Definition df_filtrado (df : DataFrame) (categorias subcategorias : list (option str))
    (preco_min preco_max : Q) : DataFrame :=
  getitem_mask df
    (and_ (and_ (and_ (isin (col ITEM_CATEGORY df) categorias)
                      (isin (col ITEM_SUBCATEGORY df) subcategorias))
                (ge (col SALE_PRICE_USD df) preco_min))
          (le (col SALE_PRICE_USD df) preco_max)).

(** Lines 253-255: the three metrics, before they are formatted. *)
Definition itens_filtrados (f : DataFrame) : nat := len f.
Definition receita_potencial (f : DataFrame) : Q := sum (col SALE_PRICE_USD f).
Definition lucro_potencial (f : DataFrame) : Q := sum (col PROFIT f).

(** *** The three conditions, stated row by row *)

Definition category_selected (categorias : list (option str)) (r : Row) : Prop :=
  In (ITEM_CATEGORY r) categorias.

Definition subcategory_selected (subcategorias : list (option str)) (r : Row) : Prop :=
  In (ITEM_SUBCATEGORY r) subcategorias.

Definition price_in_range (preco_min preco_max : Q) (r : Row) : Prop :=
  exists p, SALE_PRICE_USD r = Some p /\ (preco_min <= p)%Q /\ (p <= preco_max)%Q.

Definition satisfies (categorias subcategorias : list (option str))
    (preco_min preco_max : Q) (r : Row) : Prop :=
  category_selected categorias r /\
  subcategory_selected subcategorias r /\
  price_in_range preco_min preco_max r.

(** The same conjunction as a test on one row. *)
Definition keep (categorias subcategorias : list (option str))
    (preco_min preco_max : Q) (r : Row) : bool :=
  existsb (cell_eqb (ITEM_CATEGORY r)) categorias
  && existsb (cell_eqb (ITEM_SUBCATEGORY r)) subcategorias
  && match SALE_PRICE_USD r with
     | Some p => Qle_bool preco_min p && Qle_bool p preco_max
     | None => false
     end.

End Explorer.

(** *** The aggregates computed by hand

    One pass over the result set, counting and adding the rows that pass a
    test: what a reader with the table and a calculator would do. *)

Fixpoint manual_count (test : Pandas.Row -> bool) (df : Pandas.DataFrame) : nat :=
  match df with
  | [] => O
  | r :: df' => if test r then S (manual_count test df') else manual_count test df'
  end.

Fixpoint manual_sum (test : Pandas.Row -> bool) (c : Pandas.Row -> option Q)
    (df : Pandas.DataFrame) : Q :=
  match df with
  | [] => 0%Q
  | r :: df' =>
      if test r
      then match c r with
           | Some p => (p + manual_sum test c df')%Q
           | None => manual_sum test c df'
           end
      else manual_sum test c df'
  end.

(** The two conditions of the worked example: a dessert priced within
    [5, 10]. *)
Definition dessert_5_10 (r : Pandas.Row) : bool :=
  Pandas.cell_eqb (Pandas.ITEM_CATEGORY r) (Some (py "Dessert"))
  && match Pandas.SALE_PRICE_USD r with
     | Some p => Qle_bool 5 p && Qle_bool p 10
     | None => false
     end.

(** ** Tab 1: the dashboard *)

Module Dashboard.
Import Pandas.

(** The order in which [nlargest] ranks two cells: a missing value ranks
    below every number. *)
Definition ranks_ge (a b : option Q) : Prop :=
  match a, b with
  | Some x, Some y => (y <= x)%Q
  | _, None => True
  | None, Some _ => False
  end.

Definition ranked (c : Row -> option Q) (a b : Row) : Prop :=
  ranks_ge (c a) (c b).

Definition notna (v : option Q) : bool :=
  match v with Some _ => true | None => false end.

(** Greatest first; of two equal values the one met first stays first
    ([keep='first'], a stable sort). *)
Fixpoint insert_desc (c : Row -> option Q) (r : Row) (sorted : list Row) : list Row :=
  match sorted with
  | [] => [r]
  | x :: xs =>
      match c r, c x with
      | Some vr, Some vx =>
          if Qle_bool vx vr then r :: x :: xs else x :: insert_desc c r xs
      | _, _ => r :: x :: xs
      end
  end.

Fixpoint sort_desc (c : Row -> option Q) (df : list Row) : list Row :=
  match df with
  | [] => []
  | r :: df' => insert_desc c r (sort_desc c df')
  end.

(** [df.nlargest(n, column)]: the rows with a value, greatest first,
    then the rows without one in their original order, cut at [n]. *)
Definition nlargest (n : nat) (c : Row -> option Q) (df : DataFrame) : DataFrame :=
  let dropped := List.filter (fun r => notna (c r)) df in
  let nan_index := List.filter (fun r => negb (notna (c r))) df in
  firstn n (sort_desc c dropped ++ nan_index).

(** The rows [nlargest] leaves out. *)
Definition nlargest_rest (n : nat) (c : Row -> option Q) (df : DataFrame) : DataFrame :=
  let dropped := List.filter (fun r => notna (c r)) df in
  let nan_index := List.filter (fun r => negb (notna (c r))) df in
  skipn n (sort_desc c dropped ++ nan_index).

(** Line 170: [df.nlargest(10, 'MARGIN_PERCENT')[['MENU_ITEM_NAME', 'MARGIN_PERCENT']]] *)
Definition top10 (df : DataFrame) : list (option str * option Q) :=
  List.map (fun r => (MENU_ITEM_NAME r, MARGIN_PERCENT r)) (nlargest 10 MARGIN_PERCENT df).

End Dashboard.

(** ** CSV export *)

Module Csv.
Import Pandas.

Definition COMMA : Z := 44.
Definition QUOTE : Z := 34.
Definition LF : Z := 10.
Definition CR : Z := 13.

Section Writer.
(** How pandas prints a float; the digits it chooses are not modelled. *)
Variable float_repr : Q -> str.

(** The text of a cell; a missing value is written as nothing
    ([na_rep='']). *)
Definition cell_text (c : Cell) : str :=
  match c with
  | NA => []
  | Text s => s
  | Float q => float_repr q
  end.

(** [csv.QUOTE_MINIMAL]: a field is quoted when it holds the delimiter, the
    quote character or a line break. *)
Definition special (c : Z) : bool :=
  (c =? COMMA) || (c =? QUOTE) || (c =? LF) || (c =? CR).

Definition needs_quotes (f : str) : bool := existsb special f.

Fixpoint double_quotes (f : str) : str :=
  match f with
  | [] => []
  | c :: f' => if c =? QUOTE then QUOTE :: QUOTE :: double_quotes f'
               else c :: double_quotes f'
  end.

Definition write_field (f : str) : str :=
  if needs_quotes f then QUOTE :: double_quotes f ++ [QUOTE] else f.

Fixpoint join_fields (fs : list str) : str :=
  match fs with
  | [] => []
  | [f] => write_field f
  | f :: fs' => write_field f ++ COMMA :: join_fields fs'
  end.

(** One record and its line terminator; a record made of one empty field
    is written as two quotes. *)
Definition writerow (fs : list str) : str :=
  match fs with
  | [[]] => [QUOTE; QUOTE; LF]
  | _ => join_fields fs ++ [LF]
  end.

(** [df.to_csv(index=False)]: the header, then the rows. *)
Definition to_csv (df : Frame) : str :=
  writerow (columns df)
  ++ List.concat (List.map (fun r => writerow (List.map cell_text r)) (rows df)).

End Writer.

(** [str.encode('utf-8')]; [None] is UnicodeEncodeError (a surrogate or a
    value that is no code point). *)
Definition utf8_char (c : Z) : option (list Z) :=
  if c <? 0 then None
  else if c <? 128 then Some [c]
  else if c <? 2048 then Some [192 + c / 64; 128 + c mod 64]
  else if c <? 65536 then
    if (55296 <=? c) && (c <=? 57343) then None
    else Some [224 + c / 64 / 64; 128 + (c / 64) mod 64; 128 + c mod 64]
  else if c <? 1114112 then
    Some [240 + c / 64 / 64 / 64; 128 + (c / 64 / 64) mod 64;
          128 + (c / 64) mod 64; 128 + c mod 64]
  else None.

Fixpoint encode_utf8 (s : str) : option (list Z) :=
  match s with
  | [] => Some []
  | c :: s' =>
      match utf8_char c, encode_utf8 s' with
      | Some bs, Some bs' => Some (bs ++ bs')
      | _, _ => None
      end
  end.

(** Lines 272 and 332: [df.to_csv(index=False).encode('utf-8')] *)
Definition csv_payload (float_repr : Q -> str) (df : Frame) : option (list Z) :=
  encode_utf8 (to_csv float_repr df).

(** *** Reading the payload back

    A UTF-8 decoder and a reader of comma-separated records ended by a
    line feed, with double-quoted fields and doubled quotes inside them. *)

Definition continuation (b : Z) : bool := (128 <=? b) && (b <? 192).

Fixpoint decode_utf8 (bs : list Z) : option str :=
  match bs with
  | [] => Some []
  | b0 :: r0 =>
      if (0 <=? b0) && (b0 <? 128) then
        option_map (cons b0) (decode_utf8 r0)
      else if (194 <=? b0) && (b0 <? 224) then
        match r0 with
        | b1 :: r1 =>
            if continuation b1
            then option_map (cons ((b0 - 192) * 64 + (b1 - 128))) (decode_utf8 r1)
            else None
        | _ => None
        end
      else if (224 <=? b0) && (b0 <? 240) then
        match r0 with
        | b1 :: b2 :: r2 =>
            let c := ((b0 - 224) * 64 + (b1 - 128)) * 64 + (b2 - 128) in
            if continuation b1 && continuation b2 && (2048 <=? c)
               && negb ((55296 <=? c) && (c <=? 57343))
            then option_map (cons c) (decode_utf8 r2)
            else None
        | _ => None
        end
      else if (240 <=? b0) && (b0 <? 245) then
        match r0 with
        | b1 :: b2 :: b3 :: r3 =>
            let c := (((b0 - 240) * 64 + (b1 - 128)) * 64 + (b2 - 128)) * 64
                     + (b3 - 128) in
            if continuation b1 && continuation b2 && continuation b3
               && (65536 <=? c) && (c <? 1114112)
            then option_map (cons c) (decode_utf8 r3)
            else None
        | _ => None
        end
      else None
  end.

(** Where the reader stands: at the start of a field, inside a bare field,
    inside a quoted field, or just after a quote met inside one. *)
Inductive ReaderState := AtField | InField | InQuoted | QuoteInQuoted.

(** [fld] is the current field and [rec] the current record, both newest
    first; [recs] the finished records, newest first. *)
Fixpoint reader (st : ReaderState) (fld : str) (rec : list str)
    (recs : list (list str)) (s : str) : option (list (list str)) :=
  match s with
  | [] =>
      match st, rec with
      | AtField, [] => Some (rev recs)
      | InQuoted, _ => None
      | _, _ => Some (rev (rev (rev fld :: rec) :: recs))
      end
  | c :: s' =>
      match st with
      | AtField =>
          if c =? QUOTE then reader InQuoted [] rec recs s'
          else if c =? COMMA then reader AtField [] ([] :: rec) recs s'
          else if c =? LF then
            match rec with
            | [] => reader AtField [] [] ([] :: recs) s'
            | _ => reader AtField [] [] (rev ([] :: rec) :: recs) s'
            end
          else if c =? CR then None
          else reader InField [c] rec recs s'
      | InField =>
          if c =? COMMA then reader AtField [] (rev fld :: rec) recs s'
          else if c =? LF then reader AtField [] [] (rev (rev fld :: rec) :: recs) s'
          else if (c =? QUOTE) || (c =? CR) then None
          else reader InField (c :: fld) rec recs s'
      | InQuoted =>
          if c =? QUOTE then reader QuoteInQuoted fld rec recs s'
          else reader InQuoted (c :: fld) rec recs s'
      | QuoteInQuoted =>
          if c =? QUOTE then reader InQuoted (c :: fld) rec recs s'
          else if c =? COMMA then reader AtField [] (rev fld :: rec) recs s'
          else if c =? LF then reader AtField [] [] (rev (rev fld :: rec) :: recs) s'
          else None
      end
  end.

Definition read_csv (s : str) : option (list (list str)) := reader AtField [] [] [] s.

(** Where the reader goes once a field is complete and its delimiter [t]
    is read. *)
Definition after_field (t : Z) (f : str) (rec : list str) (recs : list (list str))
    (s : str) : option (list (list str)) :=
  if t =? COMMA then reader AtField [] (f :: rec) recs s
  else reader AtField [] [] (rev (f :: rec) :: recs) s.

(** What a reader can recover of a frame: the labels, then each row as the
    texts of its cells. *)
Definition as_text (float_repr : Q -> str) (df : Frame) : list (list str) :=
  columns df :: List.map (List.map (cell_text float_repr)) (rows df).

(** *** The name of the downloaded file *)

Record DateTime := {
  year : Z; month : Z; day : Z; hour : Z; minute : Z; second : Z
}.

Definition digit (n : Z) : Z := 48 + n mod 10.
Definition two_digits (n : Z) : str := [digit (n / 10); digit n].
Definition four_digits (n : Z) : str :=
  [digit (n / 1000); digit (n / 100); digit (n / 10); digit n].

(** [t.strftime('%Y%m%d_%H%M%S')] *)
Definition strftime (t : DateTime) : str :=
  four_digits (year t) ++ two_digits (month t) ++ two_digits (day t)
  ++ [95] ++ two_digits (hour t) ++ two_digits (minute t) ++ two_digits (second t).

(** Lines 276 and 336. *)
Definition file_name_filtrado (t : DateTime) : str :=
  py "tastybytes_filtrado_" ++ strftime t ++ py ".csv".

Definition file_name_resultado (t : DateTime) : str :=
  py "query_resultado_" ++ strftime t ++ py ".csv".

(** A calendar reading as [datetime.now()] can return it. *)
Definition well_formed (t : DateTime) : Prop :=
  1000 <= year t <= 9999 /\ 1 <= month t <= 12 /\ 1 <= day t <= 31 /\
  0 <= hour t <= 23 /\ 0 <= minute t <= 59 /\ 0 <= second t <= 59.

End Csv.

(** ** The Streamlit runtime and the world outside the script *)

Module Streamlit.
Import Pandas Csv.

(** A connection handle. *)
Definition Conn := nat.

(** The keyword arguments of [snowflake.connector.connect]. *)
Record ConnectArgs := {
  user : str; password : str; account : str; warehouse : str;
  database : str; schema : str; role : str
}.

Inductive Exn :=
| KeyError (key : string)
| DriverError (text : str)
| UnicodeEncodeError.

(** What reaches the driver. *)
Inductive Event :=
| Connect (args : ConnectArgs)
| ReadSql (conn : Conn) (query : str)
| Exit (conn : Conn) (clean : bool).

(** The answers of the world: the secrets file, and what the driver does
    with a call given everything it was asked before and the time. *)
Record World := {
  secrets : gmap string (list Z);
  connect : list Event -> Q -> ConnectArgs -> Conn + str;
  read_sql : list Event -> Q -> Conn -> str -> Frame + str;
  exit : list Event -> Q -> Conn -> bool -> option str
}.

(** What the page shows.  An element built from an exception shows its
    [str(e)]; for a driver error that is the driver's text. *)
Inductive Ui :=
| UiTitle
| UiConnected
| UiError (e : Exn)
| UiAbout
| UiDashboard (df : Frame)
| UiExplorer (df : Frame)
| UiQueryResult (resultado : Frame)
| UiDownload (data : list Z) (file_name : str)
| UiQueryError (e : Exn)
| UiTutorial
| UiFooter
| UiException (e : Exn).

(** The state of the server process: the clocks, the two caches, what was
    sent to the driver so far, and the elements of the current run. *)
Record State := {
  monotonic : Q;
  today : DateTime;
  resource_cache : option Conn;
  data_cache : gmap (list Z) (Q * Frame);
  trace : list Event;
  screen : list Ui
}.

Definition log (e : Event) (s : State) : State :=
  {| monotonic := monotonic s; today := today s;
     resource_cache := resource_cache s; data_cache := data_cache s;
     trace := trace s ++ [e]; screen := screen s |}.

Definition show (u : Ui) (s : State) : State :=
  {| monotonic := monotonic s; today := today s;
     resource_cache := resource_cache s; data_cache := data_cache s;
     trace := trace s; screen := screen s ++ [u] |}.

Definition store_resource (c : Conn) (s : State) : State :=
  {| monotonic := monotonic s; today := today s;
     resource_cache := Some c; data_cache := data_cache s;
     trace := trace s; screen := screen s |}.

Definition store_data (key : str) (v : Frame) (s : State) : State :=
  {| monotonic := monotonic s; today := today s;
     resource_cache := resource_cache s;
     data_cache := <[key := (monotonic s, v)]> (data_cache s);
     trace := trace s; screen := screen s |}.

Definition at_time (t : Q) (d : DateTime) (s : State) : State :=
  {| monotonic := t; today := d;
     resource_cache := resource_cache s; data_cache := data_cache s;
     trace := trace s; screen := screen s |}.

Definition clear_screen (s : State) : State :=
  {| monotonic := monotonic s; today := today s;
     resource_cache := resource_cache s; data_cache := data_cache s;
     trace := trace s; screen := [] |}.

(** A process that has just started. *)
Definition boot (t : Q) (d : DateTime) : State :=
  {| monotonic := t; today := d; resource_cache := None; data_cache := ∅;
     trace := []; screen := [] |}.

(** How a piece of the script ends: with a value, with an exception, or
    with [st.stop()], which no [except Exception] catches. *)
Inductive Result (A : Type) :=
| Ok (a : A)
| Raise (e : Exn)
| StopScript.
Arguments Ok {A} a.
Arguments Raise {A} e.
Arguments StopScript {A}.

Definition M (A : Type) : Type := State -> Result A * State.

Definition ret {A} (a : A) : M A := fun s => (Ok a, s).

Definition bind {A B} (m : M A) (k : A -> M B) : M B :=
  fun s =>
    match m s with
    | (Ok a, s') => k a s'
    | (Raise e, s') => (Raise e, s')
    | (StopScript, s') => (StopScript, s')
    end.

Definition raise {A} (e : Exn) : M A := fun s => (Raise e, s).
Definition stop {A} : M A := fun s => (StopScript, s).
Definition st_show (u : Ui) : M unit := fun s => (Ok tt, show u s).

(** [try: m  except Exception as e: handler e] *)
Definition try_except {A} (m : M A) (handler : Exn -> M A) : M A :=
  fun s =>
    match m s with
    | (Raise e, s') => handler e s'
    | other => other
    end.

(** [@st.cache_resource] on a function without arguments: the value of the
    first call that returns is kept for the life of the process. *)
Definition cache_resource (f : M Conn) : M Conn :=
  fun s =>
    match resource_cache s with
    | Some c => (Ok c, s)
    | None =>
        match f s with
        | (Ok c, s') => (Ok c, store_resource c s')
        | other => other
        end
    end.

(** An entry stored at [t] is served while the clock reads less than
    [t + ttl]. *)
Definition fresh (ttl now t : Q) : bool := negb (Qle_bool (t + ttl) now).

(** Whether a call with [key] is answered from the cache. *)
Definition served (ttl : Q) (s : State) (key : str) : bool :=
  match data_cache s !! key with
  | Some (t, _) => fresh ttl (monotonic s) t
  | None => false
  end.

(** [@st.cache_data(ttl=...)] on a function of one argument. *)
Definition cache_data (ttl : Q) (f : str -> M Frame) (key : str) : M Frame :=
  fun s =>
    let compute :=
      match f key s with
      | (Ok v, s') => (Ok v, store_data key v s')
      | other => other
      end in
    match data_cache s !! key with
    | Some (t, v) => if fresh ttl (monotonic s) t then (Ok v, s) else compute
    | None => compute
    end.

End Streamlit.

(** ** The script *)

Module App.
Import Pandas Csv Streamlit.

Declare Scope app_scope.
Notation "'let*' x := m 'in' k" := (bind m (fun x => k))
  (at level 10, x name, m at level 100, k at level 200) : app_scope.
Notation "m >>> k" := (bind m (fun _ => k))
  (at level 100, k at level 200, right associativity) : app_scope.
Local Open Scope app_scope.

Section Script.
Variable w : World.
Variable float_repr : Q -> str.

(** [st.secrets["snowflake"][key]] *)
Definition secret (key : string) : M str :=
  fun s =>
    match secrets w !! key with
    | Some v => (Ok v, s)
    | None => (Raise (KeyError key), s)
    end.

Definition snowflake_connect (args : ConnectArgs) : M Conn :=
  fun s =>
    match connect w (trace s) (monotonic s) args with
    | inl c => (Ok c, log (Connect args) s)
    | inr text => (Raise (DriverError text), log (Connect args) s)
    end.

Definition pd_read_sql (query : str) (conn : Conn) : M Frame :=
  fun s =>
    match read_sql w (trace s) (monotonic s) conn query with
    | inl df => (Ok df, log (ReadSql conn query) s)
    | inr text => (Raise (DriverError text), log (ReadSql conn query) s)
    end.

(** [with conn: body]: the handle's [__exit__] runs however the body
    ends, and an exception of its own replaces the body's outcome. *)
Definition with_ {A} (conn : Conn) (body : M A) : M A :=
  fun s =>
    let leave (clean : bool) (r : Result A) (s1 : State) :=
      match exit w (trace s1) (monotonic s1) conn clean with
      | None => (r, log (Exit conn clean) s1)
      | Some text => (Raise (DriverError text), log (Exit conn clean) s1)
      end in
    match body s with
    | (Ok a, s1) => leave true (Ok a) s1
    | (Raise e, s1) => leave false (Raise e) s1
    | (StopScript, s1) => leave false StopScript s1
    end.

(** Lines 28-39. *)
Definition init_connection : M Conn :=
  cache_resource
    (let* u := secret "user" in
     let* p := secret "password" in
     let* a := secret "account" in
     let* wh := secret "warehouse" in
     let* d := secret "database" in
     let* sc := secret "schema" in
     let* r := secret "role" in
     snowflake_connect
       {| user := u; password := p; account := a; warehouse := wh;
          database := d; schema := sc; role := r |}).

Definition TTL : Q := 600.

(** Lines 41-45: the function, then the function as decorated. *)
Definition run_query_body (query : str) : M Frame :=
  let* conn := init_connection in
  with_ conn (pd_read_sql query conn).

Definition run_query : str -> M Frame := cache_data TTL run_query_body.

(** The query of the dashboard, lines 125-135. *)
Definition menu_query : str := py "
                SELECT 
                    MENU_ITEM_NAME,
                    ITEM_CATEGORY,
                    ITEM_SUBCATEGORY,
                    COST_OF_GOODS_USD,
                    SALE_PRICE_USD,
                    (SALE_PRICE_USD - COST_OF_GOODS_USD) AS PROFIT,
                    ROUND(((SALE_PRICE_USD - COST_OF_GOODS_USD) / SALE_PRICE_USD) * 100, 2) AS MARGIN_PERCENT
                FROM MENU
            ".

(** What the user did before this run: whether the run button was
    pressed, and the text of the query box. *)
Record Widgets := { executar : bool; query_text : str }.

(** Lines 58-100. *)
Definition sidebar : M unit :=
  try_except
    (let* conn := init_connection in
     st_show UiConnected >>>
     let* _u := secret "user" in
     let* _a := secret "account" in
     let* _d := secret "database" in
     let* _w := secret "warehouse" in
     ret tt)
    (fun e => st_show (UiError e) >>> stop) >>>
  st_show UiAbout.

(** Lines 120-278; drawing a frame that was loaded is taken to succeed. *)
Definition tab1_tab2 : M unit :=
  let* df := run_query menu_query in
  st_show (UiDashboard df) >>>
  st_show (UiExplorer df).

Definition encode (text : str) : M (list Z) :=
  fun s =>
    match encode_utf8 text with
    | Some data => (Ok data, s)
    | None => (Raise UnicodeEncodeError, s)
    end.

(** Lines 284-342. *)
Definition tab3 (wd : Widgets) : M unit :=
  if executar wd then
    try_except
      (let* resultado := run_query (query_text wd) in
       st_show (UiQueryResult resultado) >>>
       let* csv := encode (to_csv float_repr resultado) in
       fun s => st_show (UiDownload csv (file_name_resultado (today s))) s)
      (fun e => st_show (UiQueryError e))
  else ret tt.

Definition script (wd : Widgets) : M unit :=
  st_show UiTitle >>>
  sidebar >>>
  tab1_tab2 >>>
  tab3 wd >>>
  st_show UiTutorial >>>
  st_show UiFooter.

(** How one run of the script ends. *)
Inductive Outcome :=
| Completed
| Stopped
| Crashed (e : Exn).

(** One run on a cleared page; an exception that nothing caught ends the
    run and is shown by the runtime. *)
Definition run_script (wd : Widgets) (s : State) : Outcome * State :=
  match script wd (clear_screen s) with
  | (Ok _, s') => (Completed, s')
  | (StopScript, s') => (Stopped, s')
  | (Raise e, s') => (Crashed e, show (UiException e) s')
  end.

(** What happens to the process between two observations. *)
Inductive Action :=
| Tick (t : Q) (d : DateTime)
| Rerun (wd : Widgets)
| CallInit
| CallQuery (query : str).

Definition step (a : Action) (s : State) : State :=
  match a with
  | Tick t d => at_time t d s
  | Rerun wd => snd (run_script wd s)
  | CallInit => snd (init_connection s)
  | CallQuery query => snd (run_query query s)
  end.

Definition steps (l : list Action) (s : State) : State :=
  fold_left (fun s a => step a s) l s.

End Script.

(** The calls that opened a session. *)
Definition connects (tr : list Event) : list ConnectArgs :=
  flat_map (fun e => match e with Connect a => [a] | _ => [] end) tr.

(** The queries that were sent to the warehouse. *)
Definition executions (tr : list Event) : list str :=
  flat_map (fun e => match e with ReadSql _ q => [q] | _ => [] end) tr.

(** The seven values of the secrets file, when they are all there. *)
Definition credentials (w : World) : option ConnectArgs :=
  match secrets w !! "user"%string, secrets w !! "password"%string,
        secrets w !! "account"%string, secrets w !! "warehouse"%string,
        secrets w !! "database"%string, secrets w !! "schema"%string,
        secrets w !! "role"%string with
  | Some u, Some p, Some a, Some wh, Some d, Some sc, Some r =>
      Some {| user := u; password := p; account := a; warehouse := wh;
              database := d; schema := sc; role := r |}
  | _, _, _, _, _, _, _ => None
  end.

(** A piece of the script that does not touch the clocks. *)
Definition keeps_clock {A} (m : M A) : Prop :=
  forall s r s', m s = (r, s') ->
    monotonic s' = monotonic s /\ today s' = today s.

(** A piece of the script that, once a session is cached, keeps it cached
    and opens no other. *)
Definition keeps_session {A} (m : M A) : Prop :=
  forall s r s' c, m s = (r, s') -> resource_cache s = Some c ->
    resource_cache s' = Some c /\ connects (trace s') = connects (trace s).

(** A piece of the script that does not write to the query cache. *)
Definition keeps_data {A} (m : M A) : Prop :=
  forall s r s', m s = (r, s') -> data_cache s' = data_cache s.

End App.

(** ** Column statistics of the dashboard and of the filter widgets *)

Module Stats.
Import Pandas.

(** The values of a float column that are there. *)
Fixpoint dropna (s : list (option Q)) : list Q :=
  match s with
  | [] => []
  | Some p :: s' => p :: dropna s'
  | None :: s' => dropna s'
  end.

(** [Series.count()] *)
Definition count (s : list (option Q)) : nat := length (dropna s).

(** [Series.min()] and [Series.max()]: missing values are skipped; the
    result is [None] (NaN) when no value is left. *)
Fixpoint min_ (s : list (option Q)) : option Q :=
  match s with
  | [] => None
  | None :: s' => min_ s'
  | Some p :: s' =>
      match min_ s' with
      | Some m => Some (if Qle_bool p m then p else m)
      | None => Some p
      end
  end.

Fixpoint max_ (s : list (option Q)) : option Q :=
  match s with
  | [] => None
  | None :: s' => max_ s'
  | Some p :: s' =>
      match max_ s' with
      | Some m => Some (if Qle_bool m p then p else m)
      | None => Some p
      end
  end.

(** [Series.mean()]: the sum of the values that are there over their
    number; [None] (NaN) when there is none. *)
Definition mean (s : list (option Q)) : option Q :=
  match count s with
  | O => None
  | S n => Some (sum s / inject_Z (Z.of_nat (S n)))%Q
  end.

(** Lines 143-149: the four figures of the dashboard, before they are
    formatted. *)
Definition total_de_itens (df : DataFrame) : nat := len df.
Definition preco_medio (df : DataFrame) : option Q := mean (col SALE_PRICE_USD df).
Definition lucro_medio (df : DataFrame) : option Q := mean (col PROFIT df).
Definition margem_media (df : DataFrame) : option Q := mean (col MARGIN_PERCENT df).

(** How many cells of an object column hold [v]. *)
Definition occurrences (v : option str) (s : list (option str)) : nat :=
  length (List.filter (cell_eqb v) s).

Definition present (v : option str) : bool :=
  match v with Some _ => true | None => false end.

(** Most frequent first. *)
Fixpoint insert_count (x : option str * nat) (sorted : list (option str * nat))
    : list (option str * nat) :=
  match sorted with
  | [] => [x]
  | y :: ys =>
      if (snd y <=? snd x)%nat then x :: y :: ys else y :: insert_count x ys
  end.

Fixpoint sort_counts (l : list (option str * nat)) : list (option str * nat) :=
  match l with
  | [] => []
  | x :: l' => insert_count x (sort_counts l')
  end.

(** [Series.value_counts()]: each value that occurs with the number of its
    occurrences, most frequent first; missing values are left out
    ([dropna=True]).  Here values that occur equally often keep the order
    in which they first appear; nothing below depends on that order. *)
Definition value_counts (s : list (option str)) : list (option str * nat) :=
  sort_counts
    (List.map (fun v => (v, occurrences v s)) (List.filter present (unique s))).

(** Line 159: the table behind the pie chart. *)
Definition cat_count (df : DataFrame) : list (option str * nat) :=
  value_counts (col ITEM_CATEGORY df).

(** Lines 219-239: what the three widgets hold before the user touches
    them; the slider has no range to offer when no row has a price. *)
Definition default_categorias (df : DataFrame) : list (option str) :=
  unique (col ITEM_CATEGORY df).

Definition default_subcategorias (df : DataFrame) : list (option str) :=
  unique (col ITEM_SUBCATEGORY df).

Definition default_faixa (df : DataFrame) : option (Q * Q) :=
  match min_ (col SALE_PRICE_USD df), max_ (col SALE_PRICE_USD df) with
  | Some lo, Some hi => Some (lo, hi)
  | _, _ => None
  end.

End Stats.

(** ** Sample data *)

Module Sample.
Import Pandas Csv Streamlit.

Definition item (name category subcategory : string) (cost price : Q) : Row :=
  {| MENU_ITEM_NAME := Some (py name);
     ITEM_CATEGORY := Some (py category);
     ITEM_SUBCATEGORY := Some (py subcategory);
     COST_OF_GOODS_USD := Some cost;
     SALE_PRICE_USD := Some price;
     PROFIT := Some (price - cost)%Q;
     MARGIN_PERCENT := Some ((price - cost) / price * 100)%Q |}.

(** Twenty items in two categories. *)
Definition menu : DataFrame :=
  [ item "Lemonade Pie" "Dessert" "Cold Option" 2 6;
    item "Sugar Cone" "Dessert" "Cold Option" (5#2) 6;
    item "Waffle Cone" "Dessert" "Cold Option" (5#2) 6;
    item "Two Scoop Bowl" "Dessert" "Cold Option" 3 7;
    item "Ice Cream Sandwich" "Dessert" "Cold Option" 1 4;
    item "Mango Sticky Rice" "Dessert" "Cold Option" (5#4) 5;
    item "Popsicle" "Dessert" "Cold Option" (1#2) 3;
    item "Crepe Suzette" "Dessert" "Hot Option" 2 9;
    item "Chocolate Crepe" "Dessert" "Hot Option" (5#2) 10;
    item "Creme Brulee" "Dessert" "Hot Option" 4 12;
    item "The Original" "Main" "Hot Option" 4 12;
    item "The Classic" "Main" "Hot Option" 3 9;
    item "Lobster Mac" "Main" "Hot Option" 10 15;
    item "Chicken Pot Pie Crepe" "Main" "Hot Option" 6 15;
    item "Tonkotsu Ramen" "Main" "Hot Option" 7 (35#2);
    item "Veggie Taco Bowl" "Main" "Hot Option" 6 10;
    item "Fish Burrito" "Main" "Hot Option" (15#4) (25#2);
    item "Gyro Plate" "Main" "Hot Option" 9 12;
    item "Greek Salad" "Main" "Cold Option" 4 11;
    item "Pastrami" "Main" "Cold Option" 8 11 ].

(** Two rows that differ only in a missing category against an empty
    one. *)
Definition unlabelled : Row :=
  {| MENU_ITEM_NAME := Some (py "Popsicle"); ITEM_CATEGORY := None;
     ITEM_SUBCATEGORY := Some (py "Cold Option");
     COST_OF_GOODS_USD := Some (1#2)%Q; SALE_PRICE_USD := Some 3%Q;
     PROFIT := Some (5#2)%Q; MARGIN_PERCENT := None |}.

Definition blank_label : Row :=
  {| MENU_ITEM_NAME := Some (py "Popsicle"); ITEM_CATEGORY := Some [];
     ITEM_SUBCATEGORY := Some (py "Cold Option");
     COST_OF_GOODS_USD := Some (1#2)%Q; SALE_PRICE_USD := Some 3%Q;
     PROFIT := Some (5#2)%Q; MARGIN_PERCENT := None |}.

(** A float printer for the examples: the integer part only. *)
Definition whole_part (q : Q) : str :=
  let n := (Qnum q / Z.pos (Qden q))%Z in
  [digit (n / 10); digit n].

Definition noon : DateTime :=
  {| year := 2025; month := 3; day := 9; hour := 12; minute := 0; second := 7 |}.

Definition secrets_file : gmap string (list Z) :=
  list_to_map
    [ ("user"%string, py "aluno"); ("password"%string, py "s3gredo");
      ("account"%string, py "unicamp.sa-east-1");
      ("warehouse"%string, py "COMPUTE_WH");
      ("database"%string, py "SNOWFLAKE_LEARNING_DB");
      ("schema"%string, py "PUBLIC"); ("role"%string, py "ACCOUNTADMIN") ].

(** A warehouse that answers every query with the menu. *)
Definition healthy : World :=
  {| secrets := secrets_file;
     connect := fun _ _ _ => inl 1%nat;
     read_sql := fun _ _ _ _ => inl (to_frame menu);
     exit := fun _ _ _ _ => None |}.

(** A warehouse without the MENU table. *)
Definition no_menu : World :=
  {| secrets := secrets_file;
     connect := fun _ _ _ => inl 1%nat;
     read_sql := fun _ _ _ _ => inr (py "SQL compilation error: Object 'MENU' does not exist");
     exit := fun _ _ _ _ => None |}.

(** A warehouse that answers the dashboard query and rejects any other. *)
Definition picky : World :=
  {| secrets := secrets_file;
     connect := fun _ _ _ => inl 1%nat;
     read_sql := fun _ _ _ q =>
       if str_eqb q App.menu_query then inl (to_frame menu)
       else inr (py "SQL compilation error: syntax error");
     exit := fun _ _ _ _ => None |}.

(** A warehouse that refuses the login. *)
Definition unreachable : World :=
  {| secrets := secrets_file;
     connect := fun _ _ _ => inr (py "Incorrect username or password was specified");
     read_sql := fun _ _ _ _ => inl (to_frame menu);
     exit := fun _ _ _ _ => None |}.

End Sample.

(** ** Sample processes *)

Module Scenario.
Import Pandas Csv Streamlit App.

(** The user has not pressed the run button. *)
Definition idle : Widgets := {| executar := false; query_text := py "SELECT 1" |}.

(** The user runs a query of their own. *)
Definition asking : Widgets := {| executar := true; query_text := py "SELECT 1" |}.

(** The process after a first run on the healthy warehouse. *)
Definition warm : State :=
  snd (run_script Sample.healthy Sample.whole_part idle (boot 0 Sample.noon)).

(** A deployment whose secrets file lacks the password. *)
Definition no_password : World :=
  {| secrets := delete "password"%string Sample.secrets_file;
     connect := fun _ _ _ => inl 1%nat;
     read_sql := fun _ _ _ _ => inl (to_frame Sample.menu);
     exit := fun _ _ _ _ => None |}.

End Scenario.

(** * Properties *)

Lemma str_eqb_eq (a b : str) : str_eqb a b = true <-> a = b.
Proof.
  revert b; induction a as [|x a IH]; intros [|y b]; simpl; split; try congruence.
  - intros H. apply andb_true_iff in H as [Hx Hr].
    apply Z.eqb_eq in Hx. apply IH in Hr. congruence.
  - intros H. injection H as -> ->. apply andb_true_iff. split.
    + apply Z.eqb_refl.
    + now apply IH.
Qed.

Lemma cell_eqb_eq (a b : option str) : Pandas.cell_eqb a b = true <-> a = b.
Proof.
  destruct a as [x|], b as [y|]; simpl; split; try congruence.
  - intros H. apply str_eqb_eq in H. congruence.
  - intros H. injection H as ->. now apply str_eqb_eq.
Qed.

Lemma existsb_cell_In (v : option str) (values : list (option str)) :
  existsb (Pandas.cell_eqb v) values = true <-> In v values.
Proof.
  rewrite existsb_exists. split.
  - intros (w & Hin & Heq). apply cell_eqb_eq in Heq. now subst.
  - intros Hin. exists v. split; [assumption | now apply cell_eqb_eq].
Qed.

(** ** The filter of the explorer *)

Section Filter.
Import Pandas Explorer.
Variables (categorias subcategorias : list (option str)) (preco_min preco_max : Q).

(** The mask built column by column selects the rows that pass the
    row-wise test. *)
Lemma df_filtrado_filter (df : DataFrame) :
  df_filtrado df categorias subcategorias preco_min preco_max
  = List.filter (keep categorias subcategorias preco_min preco_max) df.
Proof.
  unfold df_filtrado, getitem_mask, and_, isin, ge, le, col.
  induction df as [|r df IH]; [reflexivity|].
  simpl. rewrite <- IH. unfold keep.
  destruct (existsb (cell_eqb (ITEM_CATEGORY r)) categorias),
           (existsb (cell_eqb (ITEM_SUBCATEGORY r)) subcategorias),
           (SALE_PRICE_USD r) as [p|]; simpl; try reflexivity;
    destruct (Qle_bool preco_min p), (Qle_bool p preco_max); reflexivity.
Qed.

Lemma keep_satisfies (r : Row) :
  keep categorias subcategorias preco_min preco_max r = true
  <-> satisfies categorias subcategorias preco_min preco_max r.
Proof.
  unfold keep, satisfies, category_selected, subcategory_selected, price_in_range.
  rewrite !andb_true_iff, !existsb_cell_In.
  destruct (SALE_PRICE_USD r) as [p|].
  - rewrite andb_true_iff, !Qle_bool_iff. split.
    + intros [[Hc Hs] [Hlo Hhi]]. repeat split; try assumption. now exists p.
    + intros (Hc & Hs & q & Hq & Hlo & Hhi). injection Hq as <-. tauto.
  - split.
    + intros [_ Hf]. discriminate.
    + intros (_ & _ & q & Hq & _). discriminate.
Qed.

End Filter.

Lemma filter_sublist {A} (f : A -> bool) (l : list A) : sublist (List.filter f l) l.
Proof.
  induction l as [|x l IH]; simpl.
  - constructor.
  - destruct (f x); now constructor.
Qed.

Lemma filter_filter_same {A} (f : A -> bool) (l : list A) :
  List.filter f (List.filter f l) = List.filter f l.
Proof.
  induction l as [|x l IH]; simpl; [reflexivity|].
  destruct (f x) eqn:E; simpl; [rewrite E, IH|]; auto.
Qed.

(** C1: the filtered subset is exactly the rows that meet the conjunction
    of the three conditions (category among the selected ones, subcategory
    among the selected ones, price within the range): it is the result set
    filtered by that conjunction, so it is no longer than the result set,
    every row it keeps meets the three conditions, and no row it leaves
    out meets all three. *)
Theorem df_filtrado_conjunction (df : Pandas.DataFrame)
    (categorias subcategorias : list (option str)) (preco_min preco_max : Q) :
  let kept := Explorer.df_filtrado df categorias subcategorias preco_min preco_max in
  kept = List.filter (Explorer.keep categorias subcategorias preco_min preco_max) df
  /\ (forall r, Explorer.keep categorias subcategorias preco_min preco_max r = true
                <-> Explorer.category_selected categorias r
                    /\ Explorer.subcategory_selected subcategorias r
                    /\ Explorer.price_in_range preco_min preco_max r)
  /\ (length kept <= length df)%nat
  /\ (forall r, In r kept ->
        In r df /\ Explorer.satisfies categorias subcategorias preco_min preco_max r)
  /\ (forall r, In r df -> ~ In r kept ->
        ~ Explorer.satisfies categorias subcategorias preco_min preco_max r).
Proof.
  cbv zeta. rewrite df_filtrado_filter.
  split; [reflexivity|]. split; [|split; [|split]].
  - intros r. apply keep_satisfies.
  - apply List.filter_length_le.
  - intros r H. apply filter_In in H as [Hin Hk]. split; [assumption|].
    now apply keep_satisfies.
  - intros r Hin Hout Hok. apply Hout, filter_In. split; [assumption|].
    now apply keep_satisfies.
Qed.

(** C9: the filter keeps the rows in the order of the result set: the
    filtered subset is obtained from it by deleting rows, nothing is moved. *)
Theorem df_filtrado_keeps_order (df : Pandas.DataFrame)
    (categorias subcategorias : list (option str)) (preco_min preco_max : Q) :
  sublist (Explorer.df_filtrado df categorias subcategorias preco_min preco_max) df.
Proof. rewrite df_filtrado_filter. apply filter_sublist. Qed.

(** C10: filtering the filtered subset again with the same parameters
    changes nothing. *)
Theorem df_filtrado_idempotent (df : Pandas.DataFrame)
    (categorias subcategorias : list (option str)) (preco_min preco_max : Q) :
  Explorer.df_filtrado
    (Explorer.df_filtrado df categorias subcategorias preco_min preco_max)
    categorias subcategorias preco_min preco_max
  = Explorer.df_filtrado df categorias subcategorias preco_min preco_max.
Proof. rewrite !df_filtrado_filter. apply filter_filter_same. Qed.

(** C8: both ends of the price range are included: a row of the result
    set whose category and subcategory are selected and whose price equals
    the selected minimum or the selected maximum is kept. *)
Theorem df_filtrado_range_inclusive (df : Pandas.DataFrame)
    (categorias subcategorias : list (option str)) (preco_min preco_max : Q)
    (r : Pandas.Row) (p : Q) :
  (preco_min <= preco_max)%Q ->
  In r df ->
  Explorer.category_selected categorias r ->
  Explorer.subcategory_selected subcategorias r ->
  Pandas.SALE_PRICE_USD r = Some p ->
  (p == preco_min \/ p == preco_max)%Q ->
  In r (Explorer.df_filtrado df categorias subcategorias preco_min preco_max).
Proof.
  intros Hrange Hin Hc Hs Hp Hend. rewrite df_filtrado_filter.
  apply filter_In. split; [assumption|]. apply keep_satisfies.
  split; [assumption|]. split; [assumption|]. exists p. split; [assumption|].
  destruct Hend as [E|E]; rewrite E; split;
    first [apply Qle_refl | assumption].
Qed.

(** A dessert priced at the minimum and another priced at the maximum of
    the range [5, 10] are both kept. *)
Lemma df_filtrado_range_inclusive_witness :
  In (Sample.item "Mango Sticky Rice" "Dessert" "Cold Option" (5#4) 5)
     (Explorer.df_filtrado Sample.menu [Some (py "Dessert")]
        (Pandas.unique (Pandas.col Pandas.ITEM_SUBCATEGORY Sample.menu)) 5 10)
  /\ In (Sample.item "Chocolate Crepe" "Dessert" "Hot Option" (5#2) 10)
        (Explorer.df_filtrado Sample.menu [Some (py "Dessert")]
           (Pandas.unique (Pandas.col Pandas.ITEM_SUBCATEGORY Sample.menu)) 5 10).
Proof.
  split.
  - apply (df_filtrado_range_inclusive Sample.menu _ _ 5 10 _ 5).
    + discriminate.
    + vm_compute. tauto.
    + vm_compute. tauto.
    + vm_compute. tauto.
    + reflexivity.
    + left. reflexivity.
  - apply (df_filtrado_range_inclusive Sample.menu _ _ 5 10 _ 10).
    + discriminate.
    + vm_compute. tauto.
    + vm_compute. tauto.
    + vm_compute. tauto.
    + reflexivity.
    + right. reflexivity.
Defined.

(** ** The metrics of the explorer *)

Lemma len_filter_manual (test : Pandas.Row -> bool) (df : Pandas.DataFrame) :
  Pandas.len (List.filter test df) = manual_count test df.
Proof.
  unfold Pandas.len. induction df as [|r df IH]; simpl; [reflexivity|].
  destruct (test r); simpl; now rewrite IH.
Qed.

Lemma sum_filter_manual (test : Pandas.Row -> bool) (c : Pandas.Row -> option Q)
    (df : Pandas.DataFrame) :
  Pandas.sum (Pandas.col c (List.filter test df)) = manual_sum test c df.
Proof.
  unfold Pandas.col. induction df as [|r df IH]; simpl; [reflexivity|].
  destruct (test r); simpl; [|assumption].
  destruct (c r); now rewrite IH.
Qed.

Lemma manual_sum_ext (f g : Pandas.Row -> bool) (c : Pandas.Row -> option Q)
    (df : Pandas.DataFrame) :
  (forall r, In r df -> f r = g r) -> manual_sum f c df = manual_sum g c df.
Proof.
  induction df as [|r df IH]; intros H; simpl; [reflexivity|].
  rewrite (H r (or_introl eq_refl)), IH; [reflexivity|].
  intros r' Hr'. apply H. now right.
Qed.

Lemma unique_In (v : option str) (s : list (option str)) :
  In v (Pandas.unique s) <-> In v s.
Proof.
  induction s as [|x s IH]; simpl; [tauto|].
  rewrite filter_In, IH. split.
  - tauto.
  - intros [E|H]; [now left|].
    destruct (Pandas.cell_eqb x v) eqn:Exv.
    + left. now apply cell_eqb_eq.
    + right. now split.
Qed.

(** With every subcategory of the frame selected, only the category and
    the price decide. *)
Lemma keep_all_subcategories (df : Pandas.DataFrame) (r : Pandas.Row) :
  In r df ->
  Explorer.keep [Some (py "Dessert")]
    (Pandas.unique (Pandas.col Pandas.ITEM_SUBCATEGORY df)) 5 10 r
  = dessert_5_10 r.
Proof.
  intros Hin. unfold Explorer.keep, dessert_5_10.
  assert (Hs : existsb (Pandas.cell_eqb (Pandas.ITEM_SUBCATEGORY r))
                 (Pandas.unique (Pandas.col Pandas.ITEM_SUBCATEGORY df)) = true).
  { apply existsb_cell_In, unique_In. unfold Pandas.col. now apply in_map. }
  rewrite Hs, andb_true_r. simpl. now rewrite orb_false_r.
Qed.



(** ** The top 10 of the dashboard *)

Section Ranking.
Import Pandas Dashboard.
Variable c : Row -> option Q.

Lemma insert_desc_perm (r : Row) (l : list Row) :
  Permutation (insert_desc c r l) (r :: l).
Proof.
  induction l as [|x l IH]; simpl; [reflexivity|].
  destruct (c r) as [vr|], (c x) as [vx|]; try reflexivity.
  destruct (Qle_bool vx vr); [reflexivity|].
  rewrite IH. apply perm_swap.
Qed.

Lemma sort_desc_perm (l : list Row) : Permutation (sort_desc c l) l.
Proof.
  induction l as [|r l IH]; simpl; [reflexivity|].
  rewrite insert_desc_perm. now constructor.
Qed.

Lemma ranked_trans (x y z : Row) : ranked c x y -> ranked c y z -> ranked c x z.
Proof.
  unfold ranked, ranks_ge.
  destruct (c x), (c y), (c z); try tauto. intros; now apply Qle_trans with q0.
Qed.

Lemma insert_desc_sorted (r : Row) (l : list Row) :
  notna (c r) = true ->
  List.Forall (fun x => notna (c x) = true) l ->
  StronglySorted (ranked c) l ->
  StronglySorted (ranked c) (insert_desc c r l).
Proof.
  intros Hr Hl Hs. induction Hs as [|x l Hs IH Hx]; simpl.
  - repeat constructor.
  - apply List.Forall_cons_iff in Hl as [Hnx Hl].
    destruct (c r) as [vr|] eqn:Er; [|discriminate].
    destruct (c x) as [vx|] eqn:Ex; [|discriminate].
    destruct (Qle_bool vx vr) eqn:E.
    + apply Qle_bool_iff in E.
      assert (Hrx : ranked c r x) by (unfold ranked, ranks_ge; now rewrite Er, Ex).
      constructor; [now constructor|].
      constructor; [assumption|].
      eapply List.Forall_impl; [|exact Hx]. intros y Hy.
      now apply ranked_trans with x.
    + constructor; [now apply IH|].
      apply (Permutation_Forall (Permutation_sym (insert_desc_perm r l))).
      constructor; [|assumption].
      unfold ranked, ranks_ge. rewrite Er, Ex.
      destruct (Qlt_le_dec vx vr) as [Hlt|Hle]; [|assumption].
      apply Qlt_le_weak, Qle_bool_iff in Hlt. congruence.
Qed.

Lemma sort_desc_sorted (l : list Row) :
  List.Forall (fun x => notna (c x) = true) l ->
  StronglySorted (ranked c) (sort_desc c l).
Proof.
  induction l as [|r l IH]; intros H; simpl; [constructor|].
  apply List.Forall_cons_iff in H as [Hr Hl].
  apply insert_desc_sorted; [assumption| |now apply IH].
  now apply (Permutation_Forall (Permutation_sym (sort_desc_perm l))).
Qed.

Lemma ranked_last (l nan : list Row) :
  StronglySorted (ranked c) l ->
  List.Forall (fun x => c x = None) nan ->
  StronglySorted (ranked c) (l ++ nan).
Proof.
  intros Hs Hn.
  assert (Hany : forall (x : Row) (m : list Row),
             List.Forall (fun y => c y = None) m -> List.Forall (ranked c x) m).
  { intros x m Hm. eapply List.Forall_impl; [|exact Hm]. intros y Hy.
    unfold ranked, ranks_ge. rewrite Hy. now destruct (c x). }
  induction Hs as [|x l Hs IH Hx]; simpl.
  - induction Hn as [|y nan Hy Hn IHn]; constructor; auto.
  - constructor; [assumption|]. apply List.Forall_app. split; auto.
Qed.

Lemma filter_split (f : Row -> bool) (l : list Row) :
  Permutation (List.filter f l ++ List.filter (fun r => negb (f r)) l) l.
Proof.
  induction l as [|x l IH]; simpl; [reflexivity|].
  destruct (f x); simpl.
  - now constructor.
  - rewrite <- Permutation_middle. now constructor.
Qed.

(** The list that [nlargest] cuts: every row once, greatest value first,
    rows without a value last. *)
Lemma ranking_perm (df : DataFrame) :
  Permutation
    (sort_desc c (List.filter (fun r => notna (c r)) df)
     ++ List.filter (fun r => negb (notna (c r))) df) df.
Proof.
  rewrite sort_desc_perm. apply filter_split.
Qed.

Lemma ranking_sorted (df : DataFrame) :
  StronglySorted (ranked c)
    (sort_desc c (List.filter (fun r => notna (c r)) df)
     ++ List.filter (fun r => negb (notna (c r))) df).
Proof.
  apply ranked_last.
  - apply sort_desc_sorted, List.Forall_forall. intros x Hx.
    now apply filter_In in Hx.
  - apply List.Forall_forall. intros x Hx. apply filter_In in Hx as [_ Hx].
    now destruct (c x).
Qed.

Lemma sorted_cut (l : list Row) (n : nat) :
  StronglySorted (ranked c) l ->
  forall a b, In a (firstn n l) -> In b (skipn n l) -> ranked c a b.
Proof.
  intros Hs. revert n. induction Hs as [|x l Hs IH Hx]; intros n a b Ha Hb.
  - now rewrite firstn_nil in Ha.
  - destruct n as [|n]; simpl in *; [contradiction|].
    destruct Ha as [<-|Ha].
    + rewrite List.Forall_forall in Hx. apply Hx.
      rewrite <- (firstn_skipn n l). apply in_or_app. now right.
    + now apply (IH n).
Qed.

Lemma sorted_firstn (l : list Row) (n : nat) :
  StronglySorted (ranked c) l -> StronglySorted (ranked c) (firstn n l).
Proof.
  intros Hs. revert n. induction Hs as [|x l Hs IH Hx]; intros [|n]; simpl;
    try constructor; auto.
  rewrite List.Forall_forall in *. intros y Hy. apply Hx.
  rewrite <- (firstn_skipn n l). apply in_or_app. now left.
Qed.

End Ranking.


(** ** The two caches *)

Section Caches.
Import Pandas Csv Streamlit App.
Variable w : World.
Variable float_repr : Q -> str.

Lemma fresh_lt (ttl now t : Q) : fresh ttl now t = true <-> (now < t + ttl)%Q.
Proof.
  unfold fresh. rewrite negb_true_iff. split.
  - intros H. apply Qnot_le_lt. intros Hle. apply Qle_bool_iff in Hle. congruence.
  - intros H. destruct (Qle_bool (t + ttl) now) eqn:E; [|reflexivity].
    apply Qle_bool_iff in E. exfalso. now apply (Qlt_not_le _ _ H).
Qed.

Lemma fresh_le (ttl now t : Q) : fresh ttl now t = false <-> (t + ttl <= now)%Q.
Proof.
  unfold fresh. rewrite negb_false_iff. apply Qle_bool_iff.
Qed.

Lemma connects_app (a b : list Event) : connects (a ++ b) = connects a ++ connects b.
Proof. unfold connects. apply flat_map_app. Qed.

Lemma executions_app (a b : list Event) :
  executions (a ++ b) = executions a ++ executions b.
Proof. unfold executions. apply flat_map_app. Qed.

(** *** Pieces that leave the clocks and the session alone *)

Lemma keeps_clock_ret {A} (a : A) : keeps_clock (ret a).
Proof. intros s r s' [= <- <-]. auto. Qed.

Lemma keeps_clock_bind {A B} (m : M A) (k : A -> M B) :
  keeps_clock m -> (forall a, keeps_clock (k a)) -> keeps_clock (bind m k).
Proof.
  intros Hm Hk s r s' H. unfold bind in H.
  destruct (m s) as [[a|e|] s1] eqn:E; apply Hm in E as [E1 E2].
  - apply Hk in H as [H1 H2]. split; congruence.
  - injection H as <- <-. auto.
  - injection H as <- <-. auto.
Qed.

Lemma keeps_clock_try {A} (m : M A) (h : Exn -> M A) :
  keeps_clock m -> (forall e, keeps_clock (h e)) -> keeps_clock (try_except m h).
Proof.
  intros Hm Hh s r s' H. unfold try_except in H.
  destruct (m s) as [[a|e|] s1] eqn:E; apply Hm in E as [E1 E2].
  - injection H as <- <-. auto.
  - apply Hh in H as [H1 H2]. split; congruence.
  - injection H as <- <-. auto.
Qed.

Lemma keeps_clock_show (u : Ui) : keeps_clock (st_show u).
Proof. intros s r s' [= <- <-]. auto. Qed.

Lemma keeps_clock_stop {A} : keeps_clock (@stop A).
Proof. intros s r s' [= <- <-]. auto. Qed.

Lemma keeps_clock_secret (key : string) : keeps_clock (secret w key).
Proof.
  intros s r s' H. unfold secret in H.
  destruct (secrets w !! key); injection H as <- <-; auto.
Qed.

Lemma keeps_clock_connect (args : ConnectArgs) : keeps_clock (snowflake_connect w args).
Proof.
  intros s r s' H. unfold snowflake_connect in H.
  destruct (connect w _ _ args); injection H as <- <-; auto.
Qed.

Lemma keeps_clock_read_sql (q : str) (c : Conn) : keeps_clock (pd_read_sql w q c).
Proof.
  intros s r s' H. unfold pd_read_sql in H.
  destruct (read_sql w _ _ c q); injection H as <- <-; auto.
Qed.

Lemma keeps_clock_with {A} (c : Conn) (m : M A) :
  keeps_clock m -> keeps_clock (with_ w c m).
Proof.
  intros Hm s r s' H. unfold with_ in H.
  destruct (m s) as [[a|e|] s1] eqn:E; apply Hm in E as [E1 E2];
    destruct (exit w _ _ c _); injection H as <- <-; auto.
Qed.

Lemma keeps_clock_cache_resource (f : M Conn) :
  keeps_clock f -> keeps_clock (cache_resource f).
Proof.
  intros Hf s r s' H. unfold cache_resource in H.
  destruct (resource_cache s); [injection H as <- <-; auto|].
  destruct (f s) as [[a|e|] s1] eqn:E; apply Hf in E as [E1 E2];
    injection H as <- <-; auto.
Qed.

Lemma keeps_clock_cache_data (ttl : Q) (f : str -> M Frame) (key : str) :
  (forall k, keeps_clock (f k)) -> keeps_clock (cache_data ttl f key).
Proof.
  intros Hf s r s' H. unfold cache_data in H.
  assert (Hc : forall r s',
             match f key s with
             | (Ok v, s1) => (Ok v, store_data key v s1)
             | other => other
             end = (r, s') -> monotonic s' = monotonic s /\ today s' = today s).
  { clear H. intros r0 s0 H.
    destruct (f key s) as [[a|e|] s1] eqn:E; apply Hf in E as [E1 E2];
      injection H as <- <-; auto. }
  destruct (data_cache s !! key) as [[t v]|]; [|now apply Hc in H].
  destruct (fresh ttl (monotonic s) t); [|now apply Hc in H].
  injection H as <- <-. auto.
Qed.

Lemma keeps_clock_encode (text : str) : keeps_clock (encode text).
Proof.
  intros s r s' H. unfold encode in H.
  destruct (encode_utf8 text); injection H as <- <-; auto.
Qed.

Create HintDb clock.
#[local] Hint Resolve keeps_clock_ret keeps_clock_show keeps_clock_secret
  keeps_clock_connect keeps_clock_read_sql keeps_clock_encode : clock.
#[local] Hint Resolve keeps_clock_stop : clock.

Ltac clock :=
  repeat first
    [ apply keeps_clock_bind; [|intros ?]
    | apply keeps_clock_try; [|intros ?]
    | apply keeps_clock_with
    | apply keeps_clock_cache_resource
    | apply keeps_clock_cache_data; intros ?
    | solve [auto with clock] ].

Lemma keeps_clock_init_connection : keeps_clock (init_connection w).
Proof. unfold init_connection. clock. Qed.

Lemma keeps_clock_run_query (q : str) : keeps_clock (run_query w q).
Proof.
  unfold run_query. clock.
Qed.

Lemma keeps_clock_script (wd : Widgets) : keeps_clock (script w float_repr wd).
Proof.
  unfold script, sidebar, tab1_tab2, tab3. clock.
  destruct (executar wd); clock.
  intros s r s' [= <- <-]. auto.
Qed.

Lemma keeps_session_ret {A} (a : A) : keeps_session (ret a).
Proof. intros s r s' c [= <- <-]. auto. Qed.

Lemma keeps_session_bind {A B} (m : M A) (k : A -> M B) :
  keeps_session m -> (forall a, keeps_session (k a)) -> keeps_session (bind m k).
Proof.
  intros Hm Hk s r s' c H Hc. unfold bind in H.
  destruct (m s) as [[a|e|] s1] eqn:E; apply (Hm _ _ _ c) in E as [E1 E2]; auto.
  - apply (Hk _ _ _ _ c) in H as [H1 H2]; auto. split; congruence.
  - injection H as <- <-. auto.
  - injection H as <- <-. auto.
Qed.

Lemma keeps_session_try {A} (m : M A) (h : Exn -> M A) :
  keeps_session m -> (forall e, keeps_session (h e)) ->
  keeps_session (try_except m h).
Proof.
  intros Hm Hh s r s' c H Hc. unfold try_except in H.
  destruct (m s) as [[a|e|] s1] eqn:E; apply (Hm _ _ _ c) in E as [E1 E2]; auto.
  - injection H as <- <-. auto.
  - apply (Hh _ _ _ _ c) in H as [H1 H2]; auto. split; congruence.
  - injection H as <- <-. auto.
Qed.

Lemma keeps_session_show (u : Ui) : keeps_session (st_show u).
Proof. intros s r s' c [= <- <-]. auto. Qed.

Lemma keeps_session_stop {A} : keeps_session (@stop A).
Proof. intros s r s' c [= <- <-]. auto. Qed.

Lemma keeps_session_secret (key : string) : keeps_session (secret w key).
Proof.
  intros s r s' c H. unfold secret in H.
  destruct (secrets w !! key); injection H as <- <-; auto.
Qed.

Lemma keeps_session_encode (text : str) : keeps_session (encode text).
Proof.
  intros s r s' c H. unfold encode in H.
  destruct (encode_utf8 text); injection H as <- <-; auto.
Qed.

Lemma keeps_session_read_sql (q : str) (c : Conn) : keeps_session (pd_read_sql w q c).
Proof.
  intros s r s' c' H Hc. unfold pd_read_sql in H.
  destruct (read_sql w _ _ c q); injection H as <- <-; simpl;
    rewrite connects_app; simpl; rewrite app_nil_r; auto.
Qed.

Lemma keeps_session_with {A} (c : Conn) (m : M A) :
  keeps_session m -> keeps_session (with_ w c m).
Proof.
  intros Hm s r s' c' H Hc. unfold with_ in H.
  destruct (m s) as [[a|e|] s1] eqn:E; apply (Hm _ _ _ c') in E as [E1 E2]; auto;
    destruct (exit w _ _ c _); injection H as <- <-; simpl;
    rewrite connects_app; simpl; rewrite app_nil_r; auto.
Qed.

(** A cached session is handed out as it is: the wrapped function is not
    called. *)
Lemma cache_resource_hit (f : M Conn) (s : State) (c : Conn) :
  resource_cache s = Some c -> cache_resource f s = (Ok c, s).
Proof. intros H. unfold cache_resource. now rewrite H. Qed.

Lemma keeps_session_cache_resource (f : M Conn) : keeps_session (cache_resource f).
Proof.
  intros s r s' c H Hc. rewrite (cache_resource_hit f s c Hc) in H.
  injection H as <- <-. auto.
Qed.

Lemma keeps_session_cache_data (ttl : Q) (f : str -> M Frame) (key : str) :
  (forall k, keeps_session (f k)) -> keeps_session (cache_data ttl f key).
Proof.
  intros Hf s r s' c H Hc. unfold cache_data in H.
  assert (Hm : forall r0 s0,
             match f key s with
             | (Ok v, s1) => (Ok v, store_data key v s1)
             | other => other
             end = (r0, s0) ->
             resource_cache s0 = Some c /\ connects (trace s0) = connects (trace s)).
  { clear H. intros r0 s0 H.
    destruct (f key s) as [[a|e|] s1] eqn:E; apply (Hf _ _ _ _ c) in E as [E1 E2];
      auto; injection H as <- <-; auto. }
  destruct (data_cache s !! key) as [[t v]|]; [|now apply Hm in H].
  destruct (fresh ttl (monotonic s) t); [|now apply Hm in H].
  injection H as <- <-. auto.
Qed.

Lemma keeps_session_init_connection : keeps_session (init_connection w).
Proof. apply keeps_session_cache_resource. Qed.

Create HintDb session.
#[local] Hint Resolve keeps_session_ret keeps_session_show keeps_session_secret
  keeps_session_read_sql keeps_session_encode keeps_session_stop
  keeps_session_init_connection : session.

Ltac session :=
  repeat first
    [ solve [auto with session]
    | apply keeps_session_bind; [|intros ?]
    | apply keeps_session_try; [|intros ?]
    | apply keeps_session_with
    | apply keeps_session_cache_data; intros ? ].

Lemma keeps_session_run_query (q : str) : keeps_session (run_query w q).
Proof. unfold run_query. session. Qed.

Lemma keeps_session_script (wd : Widgets) : keeps_session (script w float_repr wd).
Proof.
  unfold script, sidebar, tab1_tab2, tab3. session.
  destruct (executar wd); session.
  intros s r s' c H Hc. injection H as <- <-. auto.
Qed.

(** Nothing the process does closes the cache of the session or opens a
    second session. *)
Lemma step_keeps_session (a : Action) (s : State) (c : Conn) :
  resource_cache s = Some c ->
  resource_cache (step w float_repr a s) = Some c
  /\ connects (trace (step w float_repr a s)) = connects (trace s).
Proof.
  intros Hc. destruct a as [t d|wd| |q]; simpl.
  - auto.
  - unfold run_script.
    destruct (script w float_repr wd (clear_screen s)) as [[u|e|] s1] eqn:E;
      apply (keeps_session_script wd _ _ _ c) in E; auto.
  - destruct (init_connection w s) as [r s1] eqn:E.
    now apply (keeps_session_init_connection _ _ _ c) in E.
  - destruct (run_query w q s) as [r s1] eqn:E.
    now apply (keeps_session_run_query q _ _ _ c) in E.
Qed.

Lemma steps_keep_session (l : list Action) (s : State) (c : Conn) :
  resource_cache s = Some c ->
  resource_cache (steps w float_repr l s) = Some c
  /\ connects (trace (steps w float_repr l s)) = connects (trace s).
Proof.
  revert s. induction l as [|a l IH]; intros s Hc; simpl; [auto|].
  destruct (step_keeps_session a s c Hc) as [H1 H2].
  destruct (IH _ H1) as [H3 H4]. split; congruence.
Qed.

(** The first call: the seven secrets are read and passed to the driver,
    and the handle it returns is kept. *)
Lemma init_connection_first (s : State) (c : Conn) (s1 : State) :
  resource_cache s = None ->
  init_connection w s = (Ok c, s1) ->
  resource_cache s1 = Some c
  /\ exists args,
       trace s1 = trace s ++ [Connect args]
       /\ connect w (trace s) (monotonic s) args = inl c
       /\ secrets w !! "user"%string = Some (user args)
       /\ secrets w !! "password"%string = Some (password args)
       /\ secrets w !! "account"%string = Some (account args)
       /\ secrets w !! "warehouse"%string = Some (warehouse args)
       /\ secrets w !! "database"%string = Some (database args)
       /\ secrets w !! "schema"%string = Some (schema args)
       /\ secrets w !! "role"%string = Some (role args).
Proof.
  intros Hn H. unfold init_connection, cache_resource in H. rewrite Hn in H.
  unfold bind, secret, snowflake_connect in H.
  destruct (secrets w !! "user"%string) as [u|]; [|discriminate].
  destruct (secrets w !! "password"%string) as [p|]; [|discriminate].
  destruct (secrets w !! "account"%string) as [a|]; [|discriminate].
  destruct (secrets w !! "warehouse"%string) as [wh|]; [|discriminate].
  destruct (secrets w !! "database"%string) as [d|]; [|discriminate].
  destruct (secrets w !! "schema"%string) as [sc|]; [|discriminate].
  destruct (secrets w !! "role"%string) as [ro|]; [|discriminate].
  match type of H with context [connect w ?tr ?t ?a] =>
    destruct (connect w tr t a) as [c'|text] eqn:E; [|discriminate];
    injection H as <- <-; split; [reflexivity|]; exists a
  end.
  simpl. repeat split; auto.
Qed.

(** C4: on its first call the connection provider opens a session with
    the seven values of the secrets file (user, password, account,
    warehouse, database, schema, role) and keeps the handle; whatever the
    process does afterwards (reruns of the script, calls, time passing),
    every later call returns that same handle without calling the driver's
    connect again. *)
Theorem init_connection_reused (s : State) (c : Conn) (s1 : State) (l : list Action) :
  resource_cache s = None ->
  init_connection w s = (Ok c, s1) ->
  (exists args,
     trace s1 = trace s ++ [Connect args]
     /\ secrets w !! "user"%string = Some (user args)
     /\ secrets w !! "password"%string = Some (password args)
     /\ secrets w !! "account"%string = Some (account args)
     /\ secrets w !! "warehouse"%string = Some (warehouse args)
     /\ secrets w !! "database"%string = Some (database args)
     /\ secrets w !! "schema"%string = Some (schema args)
     /\ secrets w !! "role"%string = Some (role args))
  /\ let s2 := steps w float_repr l s1 in
     init_connection w s2 = (Ok c, s2)
     /\ connects (trace s2) = connects (trace s1).
Proof.
  intros Hn H. destruct (init_connection_first s c s1 Hn H) as (Hc & args & Ht & _ & Hs).
  split; [now exists args|]. cbv zeta.
  destruct (steps_keep_session l s1 c Hc) as [H1 H2].
  split; [|assumption]. now apply cache_resource_hit.
Qed.

(** *** The query cache *)

(** An entry that has not expired answers the call; nothing else
    happens. *)
Lemma run_query_hit (s : State) (q : str) (t : Q) (v : Frame) :
  data_cache s !! q = Some (t, v) ->
  (monotonic s < t + TTL)%Q ->
  run_query w q s = (Ok v, s).
Proof.
  intros Hl Hf. unfold run_query, cache_data. rewrite Hl.
  now rewrite (proj2 (fresh_lt _ _ _) Hf).
Qed.

(** Without such an entry the function runs, and what it returns is stored
    under the query text. *)
Lemma run_query_miss (s : State) (q : str) :
  served TTL s q = false ->
  run_query w q s
  = match run_query_body w q s with
    | (Ok v, s') => (Ok v, store_data q v s')
    | other => other
    end.
Proof.
  intros H. unfold run_query, cache_data, served in *.
  destruct (data_cache s !! q) as [[t v]|]; [|reflexivity]. now rewrite H.
Qed.

(** With a session at hand the function sends the query through it. *)
Lemma run_query_body_connected (s : State) (q : str) (c : Conn) :
  resource_cache s = Some c ->
  exists clean r,
    run_query_body w q s
    = (r, log (Exit c clean) (log (ReadSql c q) s)).
Proof.
  intros Hc. unfold run_query_body, bind.
  unfold init_connection. rewrite (cache_resource_hit _ s c Hc).
  unfold with_, pd_read_sql.
  destruct (read_sql w (trace s) (monotonic s) c q) as [df|text].
  - exists true. destruct (exit w _ _ c true); eauto.
  - exists false. destruct (exit w _ _ c false); eauto.
Qed.

(** When the function returns a frame, a session is cached and the query
    went to the warehouse once. *)
Lemma run_query_body_ok (s : State) (q : str) (v : Frame) (s' : State) :
  run_query_body w q s = (Ok v, s') ->
  (exists c, resource_cache s' = Some c)
  /\ executions (trace s') = executions (trace s) ++ [q].
Proof.
  intros H. unfold run_query_body, bind in H.
  destruct (init_connection w s) as [[c|e|] s0] eqn:Ei; try discriminate.
  assert (Hc : resource_cache s0 = Some c /\ executions (trace s0) = executions (trace s)).
  { destruct (resource_cache s) as [c0|] eqn:Er.
    - unfold init_connection in Ei. rewrite (cache_resource_hit _ s c0 Er) in Ei.
      injection Ei as <- <-. auto.
    - destruct (init_connection_first s c s0 Er Ei) as (H1 & args & Ht & _).
      split; [assumption|]. rewrite Ht, executions_app. simpl. apply app_nil_r. }
  destruct Hc as [Hc He].
  unfold with_, pd_read_sql in H.
  destruct (read_sql w (trace s0) (monotonic s0) c q) as [df|text];
    match type of H with context [exit w ?a ?b ?c ?d] =>
      destruct (exit w a b c d) end; try discriminate.
  injection H as <- <-. simpl. split; [eauto|].
  rewrite !executions_app, He. simpl. now rewrite app_nil_r.
Qed.

(** C2: take a call of the query executor with a query text that goes to
    the warehouse and returns a result set, which is stored with the time
    of that call.  A second call with the same text made before 600
    seconds have passed returns the same result set and leaves the process
    as it was: nothing is sent to the warehouse.  A second call made once
    600 seconds have passed sends the query to the warehouse again, and the
    result set it returns is stored with the time of the second call. *)
Theorem run_query_ttl (s : State) (q : str) (v : Frame) (s1 : State)
    (t1 : Q) (d1 : DateTime) :
  served TTL s q = false ->
  run_query w q s = (Ok v, s1) ->
  let s1' := at_time t1 d1 s1 in
  (TTL == 600)%Q
  /\ executions (trace s1) = executions (trace s) ++ [q]
  /\ data_cache s1 !! q = Some (monotonic s, v)
  /\ ((t1 < monotonic s + 600)%Q -> run_query w q s1' = (Ok v, s1'))
  /\ ((monotonic s + 600 <= t1)%Q ->
      executions (trace (snd (run_query w q s1'))) = executions (trace s1) ++ [q]
      /\ forall v' s2, run_query w q s1' = (Ok v', s2) ->
           data_cache s2 !! q = Some (t1, v')).
Proof.
  intros Hmiss H. cbv zeta. rewrite (run_query_miss s q Hmiss) in H.
  destruct (run_query_body w q s) as [[v0|e|] s0] eqn:Eb; try discriminate.
  injection H as -> <-.
  destruct (run_query_body_ok s q v s0 Eb) as [[c Hc] He].
  destruct (keeps_clock_bind _ _ keeps_clock_init_connection
              (fun conn => keeps_clock_with conn _ (keeps_clock_read_sql q conn))
              s _ _ Eb) as [Hm _].
  assert (Hstored : data_cache (store_data q v s0) !! q = Some (monotonic s, v)).
  { simpl. rewrite lookup_insert_eq. now rewrite Hm. }
  split; [reflexivity|]. split; [exact He|]. split; [exact Hstored|]. split.
  - intros Hlt. apply (run_query_hit _ q (monotonic s) v); [exact Hstored|exact Hlt].
  - intros Hle.
    assert (Hexp : served TTL (at_time t1 d1 (store_data q v s0)) q = false).
    { unfold served. simpl. rewrite lookup_insert_eq, Hm. now apply fresh_le. }
    rewrite (run_query_miss _ q Hexp).
    destruct (run_query_body_connected (at_time t1 d1 (store_data q v s0)) q c Hc)
      as (clean & r & Er).
    rewrite Er. split.
    + assert (Ht : executions (trace (log (Exit c clean)
                      (log (ReadSql c q) (at_time t1 d1 (store_data q v s0)))))
                   = executions (trace (store_data q v s0)) ++ [q]).
      { simpl. rewrite !executions_app. simpl. now rewrite app_nil_r. }
      destruct r; exact Ht.
    + intros v' s2 Hr. destruct r as [v2|e2|]; try discriminate.
      injection Hr as <- <-. simpl. now rewrite lookup_insert_eq.
Qed.

End Caches.

(** ** One run of the script *)

Section Run.
Import Pandas Csv Streamlit App.
Variable w : World.
Variable float_repr : Q -> str.

Lemma credentials_secrets (args : ConnectArgs) :
  credentials w = Some args ->
  secrets w !! "user"%string = Some (user args)
  /\ secrets w !! "password"%string = Some (password args)
  /\ secrets w !! "account"%string = Some (account args)
  /\ secrets w !! "warehouse"%string = Some (warehouse args)
  /\ secrets w !! "database"%string = Some (database args)
  /\ secrets w !! "schema"%string = Some (schema args)
  /\ secrets w !! "role"%string = Some (role args).
Proof.
  unfold credentials. intros H.
  destruct (secrets w !! "user"%string); [|discriminate].
  destruct (secrets w !! "password"%string); [|discriminate].
  destruct (secrets w !! "account"%string); [|discriminate].
  destruct (secrets w !! "warehouse"%string); [|discriminate].
  destruct (secrets w !! "database"%string); [|discriminate].
  destruct (secrets w !! "schema"%string); [|discriminate].
  destruct (secrets w !! "role"%string); [|discriminate].
  injection H as <-. simpl. repeat split.
Qed.

Ltac unfold_script :=
  cbv beta iota zeta delta
    [run_script script sidebar tab1_tab2 tab3 try_except bind ret raise stop
     st_show init_connection cache_resource secret snowflake_connect
     run_query run_query_body cache_data with_ pd_read_sql encode];
  cbn [resource_cache data_cache trace monotonic today screen
       show log clear_screen store_resource store_data at_time].

(** Unfolds the script and feeds it the known answers of the world. *)
Ltac run_with tac := repeat (unfold_script; tac).

(** The sidebar when the login is refused: the error is shown and the run
    stops there. *)
Lemma connection_failure_stops (wd : Widgets) (s : State) (args : ConnectArgs)
    (text : str) :
  credentials w = Some args ->
  resource_cache s = None ->
  connect w (trace s) (monotonic s) args = inr text ->
  exists s',
    run_script w float_repr wd s = (Stopped, s')
    /\ screen s' = [UiTitle; UiError (DriverError text)]
    /\ resource_cache s' = None.
Proof.
  intros Hcr Hn Hc.
  destruct (credentials_secrets args Hcr) as (H1 & H2 & H3 & H4 & H5 & H6 & H7).
  destruct args; simpl in *.
  run_with ltac:(first [rewrite Hn | rewrite H1 | rewrite H2 | rewrite H3
                       | rewrite H4 | rewrite H5 | rewrite H6 | rewrite H7
                       | rewrite Hc]).
  eexists. split; [reflexivity|]. simpl. auto.
Qed.


(** C3, where the code departs from it: when the query of the dashboard
    fails, nothing catches the error; the run ends with the exception right
    after the sidebar, and neither the query tab, nor the tutorial, nor the
    footer is drawn, whatever the user did. *)
Theorem dashboard_query_failure_ends_run (wd : Widgets) (s : State) (c : Conn)
    (args : ConnectArgs) (text : str) :
  credentials w = Some args ->
  (resource_cache s = Some c
   \/ (resource_cache s = None /\ connect w (trace s) (monotonic s) args = inl c)) ->
  served TTL s menu_query = false ->
  (forall tr, read_sql w tr (monotonic s) c menu_query = inr text) ->
  exists e s',
    run_script w float_repr wd s = (Crashed e, s')
    /\ screen s' = [UiTitle; UiConnected; UiAbout; UiException e]
    /\ ((forall tr, exit w tr (monotonic s) c false = None) -> e = DriverError text).
Proof.
  intros Hcr Hconn Hmiss Hq.
  destruct (credentials_secrets args Hcr) as (H1 & H2 & H3 & H4 & H5 & H6 & H7).
  unfold served in Hmiss. destruct args; simpl in *.
  destruct Hconn as [Hc|[Hn Hc]];
    run_with ltac:(first [rewrite Hc | rewrite Hn | rewrite H1 | rewrite H2
                         | rewrite H3 | rewrite H4 | rewrite H5 | rewrite H6
                         | rewrite H7 | rewrite Hq]);
    (destruct (data_cache s !! menu_query) as [[t' v']|]; [rewrite Hmiss|]);
    match goal with |- context [exit w ?tr ?t0 c false] =>
      destruct (exit w tr t0 c false) as [text'|] eqn:Ee end;
    unfold_script; eexists; eexists; (split; [reflexivity|]);
    (split; [reflexivity|]); intros He; try reflexivity;
    rewrite He in Ee; discriminate.
Qed.

End Run.

(** ** The CSV export *)

Section CsvExport.
Import Pandas Csv.

Lemma special_false (c : Z) :
  special c = false ->
  (c =? COMMA) = false /\ (c =? QUOTE) = false /\ (c =? LF) = false
  /\ (c =? CR) = false.
Proof.
  unfold special. rewrite !orb_false_iff. tauto.
Qed.

Lemma reader_bare (f : str) :
  needs_quotes f = false ->
  forall fld rec recs s,
    reader InField fld rec recs (f ++ s) = reader InField (rev f ++ fld) rec recs s.
Proof.
  unfold needs_quotes. induction f as [|c f IH]; intros Hf fld rec recs s;
    [reflexivity|].
  simpl in Hf. apply orb_false_iff in Hf as [Hc Hf].
  apply special_false in Hc as (H1 & H2 & H3 & H4).
  cbn [app reader]. rewrite H1, H2, H3, H4. cbn [orb].
  rewrite (IH Hf). cbn [rev]. now rewrite <- app_assoc.
Qed.

Lemma reader_quoted (f : str) :
  forall fld rec recs s,
    reader InQuoted fld rec recs (double_quotes f ++ QUOTE :: s)
    = reader QuoteInQuoted (rev f ++ fld) rec recs s.
Proof.
  induction f as [|c f IH]; intros fld rec recs s.
  - cbn [double_quotes app reader rev]. now rewrite Z.eqb_refl.
  - cbn [double_quotes]. destruct (c =? QUOTE) eqn:E.
    + apply Z.eqb_eq in E. subst c. cbn [app reader]. rewrite !Z.eqb_refl.
      rewrite IH. cbn [rev]. now rewrite <- app_assoc.
    + cbn [app reader]. rewrite E, IH. cbn [rev]. now rewrite <- app_assoc.
Qed.

Lemma reader_field (f : str) (t : Z) (rec : list str) (recs : list (list str))
    (s : str) :
  t = COMMA \/ t = LF ->
  f <> [] \/ t = COMMA \/ rec <> [] ->
  reader AtField [] rec recs (write_field f ++ t :: s) = after_field t f rec recs s.
Proof.
  intros Ht Hok. unfold write_field, after_field.
  destruct (needs_quotes f) eqn:Hq.
  - cbn [app reader]. rewrite Z.eqb_refl. rewrite <- app_assoc.
    cbn [app]. rewrite reader_quoted, app_nil_r. cbn [reader].
    destruct Ht as [-> | ->]; cbn; now rewrite rev_involutive.
  - destruct f as [|c f].
    + cbn [app reader].
      destruct Ht as [-> | ->]; cbn; [reflexivity|].
      destruct rec as [|f0 rec]; [|reflexivity].
      destruct Hok as [H|[H|H]]; [congruence | discriminate | congruence].
    + unfold needs_quotes in Hq. simpl in Hq.
      apply orb_false_iff in Hq as [Hc Hq].
      apply special_false in Hc as (H1 & H2 & H3 & H4).
      cbn [app reader]. rewrite H1, H2, H3, H4.
      rewrite (reader_bare f Hq). cbn [reader].
      destruct Ht as [-> | ->]; cbn;
        now rewrite rev_app_distr, rev_involutive.
Qed.

Lemma reader_fields (fs : list str) :
  fs <> [] ->
  forall rec recs s,
    rec <> [] \/ fs <> [[]] ->
    reader AtField [] rec recs (join_fields fs ++ LF :: s)
    = reader AtField [] [] (rev (rev fs ++ rec) :: recs) s.
Proof.
  induction fs as [|f fs IH]; intros Hne rec recs s Hok; [congruence|].
  destruct fs as [|f2 fs].
  - cbn [join_fields]. rewrite reader_field.
    + reflexivity.
    + now right.
    + destruct Hok as [H|H]; [now right; right|].
      left. intros ->. now apply H.
  - change (join_fields (f :: f2 :: fs))
      with (write_field f ++ COMMA :: join_fields (f2 :: fs)).
    rewrite <- app_assoc. cbn [app]. rewrite reader_field; [|now left|now right; left].
    unfold after_field. rewrite Z.eqb_refl.
    rewrite IH; [|discriminate|now left].
    cbn [rev]. now rewrite <- !app_assoc.
Qed.

Lemma reader_writerow (fs : list str) (recs : list (list str)) (s : str) :
  reader AtField [] [] recs (writerow fs ++ s) = reader AtField [] [] (fs :: recs) s.
Proof.
  destruct fs as [|f fs].
  - reflexivity.
  - assert (Hgen : f :: fs <> [[]] ->
              reader AtField [] [] recs ((join_fields (f :: fs) ++ [LF]) ++ s)
              = reader AtField [] [] ((f :: fs) :: recs) s).
    { intros Hne. rewrite <- app_assoc. cbn [app].
      rewrite reader_fields; [|discriminate|now right].
      now rewrite app_nil_r, rev_involutive. }
    destruct f as [|c f]; [destruct fs as [|f2 fs]|].
    + reflexivity.
    + apply Hgen. discriminate.
    + apply Hgen. discriminate.
Qed.

Lemma reader_rows (rows : list (list str)) (recs : list (list str)) (s : str) :
  reader AtField [] [] recs (List.concat (List.map writerow rows) ++ s)
  = reader AtField [] [] (rev rows ++ recs) s.
Proof.
  revert recs. induction rows as [|r rows IH]; intros recs; [reflexivity|].
  cbn [List.map List.concat]. rewrite <- app_assoc, reader_writerow, IH.
  cbn [rev]. now rewrite <- app_assoc.
Qed.

(** Reading the exported text gives back the labels and the text of every
    cell, row by row. *)
Lemma read_csv_to_csv (float_repr : Q -> str) (df : Frame) :
  read_csv (to_csv float_repr df) = Some (as_text float_repr df).
Proof.
  unfold read_csv, to_csv, as_text.
  rewrite reader_writerow.
  rewrite <- (List.map_map (List.map (cell_text float_repr)) writerow).
  rewrite <- (app_nil_r (List.concat _)).
  rewrite reader_rows. cbn [reader].
  now rewrite rev_app_distr, rev_involutive.
Qed.

(** *** UTF-8 *)

(** Names the quotient and the remainder of [x] by 64. *)
Ltac by64 x :=
  let q := fresh "q" in
  let r := fresh "r" in
  pose proof (Z.div_mod x 64 ltac:(lia));
  pose proof (Z.mod_pos_bound x 64 ltac:(lia));
  generalize dependent (x mod 64); generalize dependent (x / 64);
  intros q r; intros.

(** Decides the comparisons left in the goal. *)
Ltac compare_all :=
  repeat match goal with
    | |- context [?a <? ?b] => destruct (Z.ltb_spec a b); try lia
    | |- context [?a <=? ?b] => destruct (Z.leb_spec a b); try lia
    end.

Lemma decode_utf8_char (c : Z) (bs rest : list Z) :
  utf8_char c = Some bs ->
  decode_utf8 (bs ++ rest) = option_map (cons c) (decode_utf8 rest).
Proof.
  unfold utf8_char.
  destruct (Z.ltb_spec c 0); [discriminate|].
  destruct (Z.ltb_spec c 128).
  { intros [= <-]. cbn [app decode_utf8]. compare_all. reflexivity. }
  destruct (Z.ltb_spec c 2048).
  { intros [= <-]. by64 c. subst c.
    cbn [app decode_utf8]. unfold continuation. compare_all. cbn [andb].
    do 2 f_equal. lia. }
  destruct (Z.ltb_spec c 65536).
  { destruct (Z.leb_spec 55296 c); destruct (Z.leb_spec c 57343);
      cbn [andb]; try discriminate;
      intros [= <-]; by64 (c / 64); by64 c; subst;
      cbn [app decode_utf8]; unfold continuation; cbv zeta; compare_all;
      cbn [andb negb]; do 2 f_equal; lia. }
  destruct (Z.ltb_spec c 1114112); [|discriminate].
  intros [= <-]. by64 (c / 64 / 64). by64 (c / 64). by64 c. subst.
  cbn [app decode_utf8]. unfold continuation. cbv zeta. compare_all.
  cbn [andb negb]. do 2 f_equal. lia.
Qed.

Lemma decode_encode_utf8 (s : str) (bs : list Z) :
  encode_utf8 s = Some bs -> decode_utf8 bs = Some s.
Proof.
  revert bs. induction s as [|c s IH]; intros bs H; simpl in H.
  - now injection H as <-.
  - destruct (utf8_char c) as [b|] eqn:Ec; [|discriminate].
    destruct (encode_utf8 s) as [b'|]; [|discriminate].
    injection H as <-. rewrite (decode_utf8_char c b b' Ec).
    now rewrite (IH b' eq_refl).
Qed.

(** *** The time stamp *)

Lemma two_digits_inj (n m : Z) :
  0 <= n < 100 -> 0 <= m < 100 -> two_digits n = two_digits m -> n = m.
Proof.
  unfold two_digits, digit. intros Hn Hm [= H1 H2].
  Z.to_euclidean_division_equations. lia.
Qed.

Lemma four_digits_inj (n m : Z) :
  0 <= n < 10000 -> 0 <= m < 10000 -> four_digits n = four_digits m -> n = m.
Proof.
  unfold four_digits, digit. intros Hn Hm [= H1 H2 H3 H4].
  Z.to_euclidean_division_equations. lia.
Qed.

Lemma strftime_inj (t t' : DateTime) :
  well_formed t -> well_formed t' -> strftime t = strftime t' -> t = t'.
Proof.
  unfold well_formed, strftime. destruct t, t'; cbn [year month day hour minute second].
  intros (Hy & Hmo & Hd & Hh & Hmi & Hs) (Hy' & Hmo' & Hd' & Hh' & Hmi' & Hs') H.
  cbn [app four_digits two_digits] in H.
  injection H as Y1 Y2 Y3 Y4 M1 M2 D1 D2 h1 h2 m1 m2 s1 s2.
  f_equal.
  - apply four_digits_inj; [lia|lia|]. unfold four_digits. congruence.
  - apply two_digits_inj; [lia|lia|]. unfold two_digits. congruence.
  - apply two_digits_inj; [lia|lia|]. unfold two_digits. congruence.
  - apply two_digits_inj; [lia|lia|]. unfold two_digits. congruence.
  - apply two_digits_inj; [lia|lia|]. unfold two_digits. congruence.
  - apply two_digits_inj; [lia|lia|]. unfold two_digits. congruence.
Qed.

Lemma strftime_length (t : DateTime) : length (strftime t) = 15%nat.
Proof. reflexivity. Qed.


End CsvExport.

(** ** The properties on the sample data *)



(** A query on a healthy warehouse: served from the cache after 599
    seconds, sent again after 600. *)
Lemma run_query_ttl_witness :
  let s1 := snd (App.run_query Sample.healthy (py "SELECT 1")
                   (Streamlit.boot 0 Sample.noon)) in
  App.run_query Sample.healthy (py "SELECT 1") (Streamlit.at_time 599 Sample.noon s1)
  = (Streamlit.Ok (Pandas.to_frame Sample.menu), Streamlit.at_time 599 Sample.noon s1)
  /\ App.executions
       (Streamlit.trace
          (snd (App.run_query Sample.healthy (py "SELECT 1")
                  (Streamlit.at_time 600 Sample.noon s1))))
     = [py "SELECT 1"; py "SELECT 1"].
Proof.
  cbv zeta.
  assert (Hmiss : Streamlit.served App.TTL (Streamlit.boot 0 Sample.noon)
                    (py "SELECT 1") = false) by reflexivity.
  assert (Hcall : App.run_query Sample.healthy (py "SELECT 1")
                    (Streamlit.boot 0 Sample.noon)
                  = (Streamlit.Ok (Pandas.to_frame Sample.menu),
                     snd (App.run_query Sample.healthy (py "SELECT 1")
                            (Streamlit.boot 0 Sample.noon))))
    by (vm_compute; reflexivity).
  split.
  - destruct (run_query_ttl Sample.healthy _ _ _ _ 599 Sample.noon Hmiss Hcall)
      as (_ & _ & _ & Hin & _).
    apply Hin. reflexivity.
  - destruct (run_query_ttl Sample.healthy _ _ _ _ 600 Sample.noon Hmiss Hcall)
      as (_ & He & _ & _ & Hout).
    destruct Hout as [Hx _]; [discriminate|].
    rewrite Hx, He. reflexivity.
Defined.

(** A process that connects, then reruns the script, waits, queries and
    asks for the connection again: the first handle, one login. *)
Lemma init_connection_reused_witness :
  let s1 := snd (App.init_connection Sample.healthy (Streamlit.boot 0 Sample.noon)) in
  let s2 := App.steps Sample.healthy Sample.whole_part
              [App.Rerun {| App.executar := true; App.query_text := py "SELECT 1" |};
               App.Tick 700 Sample.noon;
               App.CallQuery App.menu_query;
               App.CallInit] s1 in
  App.init_connection Sample.healthy s2 = (Streamlit.Ok 1%nat, s2)
  /\ App.connects (Streamlit.trace s2) = App.connects (Streamlit.trace s1).
Proof.
  apply (init_connection_reused Sample.healthy Sample.whole_part
           (Streamlit.boot 0 Sample.noon) 1%nat).
  - reflexivity.
  - vm_compute. reflexivity.
Defined.

(** A first run against a warehouse without the MENU table. *)
Lemma dashboard_query_failure_ends_run_witness :
  exists e s',
    App.run_script Sample.no_menu Sample.whole_part
      {| App.executar := false; App.query_text := py "SELECT 1" |}
      (Streamlit.boot 0 Sample.noon) = (App.Crashed e, s')
    /\ Streamlit.screen s'
       = [Streamlit.UiTitle; Streamlit.UiConnected; Streamlit.UiAbout;
          Streamlit.UiException e]
    /\ ((forall tr, Streamlit.exit Sample.no_menu tr
                      (Streamlit.monotonic (Streamlit.boot 0 Sample.noon)) 1%nat false
                    = None) ->
        e = Streamlit.DriverError
              (py "SQL compilation error: Object 'MENU' does not exist")).
Proof.
  eapply (dashboard_query_failure_ends_run Sample.no_menu Sample.whole_part).
  - vm_compute. reflexivity.
  - right. split; reflexivity.
  - reflexivity.
  - intros tr. reflexivity.
Defined.

(** * Further properties of the script *)

(** ** The explorer beyond the filter *)

Section Widgets.
Import Pandas Explorer Stats.

Lemma min_none (s : list (option Q)) :
  min_ s = None -> forall p, ~ In (Some p) s.
Proof.
  induction s as [|[y|] s IH]; intros H p Hp; simpl in *.
  - contradiction.
  - destruct (min_ s); discriminate.
  - destruct Hp as [Hp|Hp]; [discriminate|now apply (IH H p)].
Qed.

Lemma max_none (s : list (option Q)) :
  max_ s = None -> forall p, ~ In (Some p) s.
Proof.
  induction s as [|[y|] s IH]; intros H p Hp; simpl in *.
  - contradiction.
  - destruct (max_ s); discriminate.
  - destruct Hp as [Hp|Hp]; [discriminate|now apply (IH H p)].
Qed.

Lemma min_lower (s : list (option Q)) (m : Q) :
  min_ s = Some m -> forall p, In (Some p) s -> (m <= p)%Q.
Proof.
  revert m. induction s as [|[x|] s IH]; intros m Hm p Hp; simpl in *.
  - contradiction.
  - destruct (min_ s) as [m'|] eqn:Es.
    + injection Hm as <-. destruct (Qle_bool x m') eqn:E.
      * apply Qle_bool_iff in E. destruct Hp as [[= ->]|Hp]; [apply Qle_refl|].
        apply Qle_trans with m'; [assumption|now apply IH].
      * assert (m' <= x)%Q.
        { destruct (Qlt_le_dec m' x) as [Hlt|Hle]; [now apply Qlt_le_weak|].
          apply Qle_bool_iff in Hle. congruence. }
        destruct Hp as [[= ->]|Hp]; [assumption|now apply IH].
    + injection Hm as <-. destruct Hp as [[= ->]|Hp]; [apply Qle_refl|].
      exfalso. now apply (min_none s Es p).
  - destruct Hp as [Hp|Hp]; [discriminate|now apply IH].
Qed.

Lemma max_upper (s : list (option Q)) (m : Q) :
  max_ s = Some m -> forall p, In (Some p) s -> (p <= m)%Q.
Proof.
  revert m. induction s as [|[x|] s IH]; intros m Hm p Hp; simpl in *.
  - contradiction.
  - destruct (max_ s) as [m'|] eqn:Es.
    + injection Hm as <-. destruct (Qle_bool m' x) eqn:E.
      * apply Qle_bool_iff in E. destruct Hp as [[= ->]|Hp]; [apply Qle_refl|].
        apply Qle_trans with m'; [now apply IH|assumption].
      * assert (x <= m')%Q.
        { destruct (Qlt_le_dec x m') as [Hlt|Hle]; [now apply Qlt_le_weak|].
          apply Qle_bool_iff in Hle. congruence. }
        destruct Hp as [[= ->]|Hp]; [assumption|now apply IH].
    + injection Hm as <-. destruct Hp as [[= ->]|Hp]; [apply Qle_refl|].
      exfalso. now apply (max_none s Es p).
  - destruct Hp as [Hp|Hp]; [discriminate|now apply IH].
Qed.

Lemma filter_none {A} (f : A -> bool) (l : list A) :
  (forall x, In x l -> f x = false) -> List.filter f l = [].
Proof.
  induction l as [|x l IH]; intros H; simpl; [reflexivity|].
  rewrite (H x (or_introl eq_refl)). apply IH. intros y Hy. apply H. now right.
Qed.

Lemma filter_sublist_impl {A} (f g : A -> bool) (l : list A) :
  (forall x, In x l -> f x = true -> g x = true) ->
  sublist (List.filter f l) (List.filter g l).
Proof.
  induction l as [|x l IH]; intros H; simpl; [constructor|].
  assert (IH' : sublist (List.filter f l) (List.filter g l)).
  { apply IH. intros y Hy. apply H. now right. }
  destruct (f x) eqn:Ef.
  - rewrite (H x (or_introl eq_refl) Ef). now constructor.
  - destruct (g x); [now constructor|assumption].
Qed.

Lemma filter_swap {A} (f g : A -> bool) (l : list A) :
  List.filter f (List.filter g l) = List.filter g (List.filter f l).
Proof.
  induction l as [|x l IH]; simpl; [reflexivity|].
  destruct (f x) eqn:Ef, (g x) eqn:Eg; simpl; rewrite ?Ef, ?Eg, IH; reflexivity.
Qed.

(** With the three widgets as they are first drawn (every category, every
    subcategory, the whole price range of the frame), the filter keeps
    each row that has a price and drops the rows without one. *)
Theorem default_widgets_keep_priced_rows (df : DataFrame) (lo hi : Q) :
  default_faixa df = Some (lo, hi) ->
  df_filtrado df (default_categorias df) (default_subcategorias df) lo hi
  = List.filter (fun r => Dashboard.notna (SALE_PRICE_USD r)) df.
Proof.
  unfold default_faixa, default_categorias, default_subcategorias.
  destruct (min_ (col SALE_PRICE_USD df)) as [lo'|] eqn:Emin; [|discriminate].
  destruct (max_ (col SALE_PRICE_USD df)) as [hi'|] eqn:Emax; [|discriminate].
  intros [= <- <-]. rewrite df_filtrado_filter.
  apply List.filter_ext_in. intros r Hr. unfold keep.
  assert (Hc : existsb (cell_eqb (ITEM_CATEGORY r)) (unique (col ITEM_CATEGORY df)) = true).
  { apply existsb_cell_In, unique_In. unfold col. now apply in_map. }
  assert (Hs : existsb (cell_eqb (ITEM_SUBCATEGORY r)) (unique (col ITEM_SUBCATEGORY df)) = true).
  { apply existsb_cell_In, unique_In. unfold col. now apply in_map. }
  rewrite Hc, Hs. cbn [andb].
  destruct (SALE_PRICE_USD r) as [p|] eqn:Ep; [|reflexivity].
  assert (Hin : In (Some p) (col SALE_PRICE_USD df)).
  { unfold col. rewrite <- Ep. now apply in_map. }
  pose proof (min_lower _ _ Emin p Hin) as H1.
  pose proof (max_upper _ _ Emax p Hin) as H2.
  apply Qle_bool_iff in H1, H2. now rewrite H1, H2.
Qed.

(** The sample menu: every item has a price, so the first drawing of the
    explorer lists all twenty. *)
Lemma default_widgets_keep_priced_rows_witness :
  df_filtrado Sample.menu (default_categorias Sample.menu)
    (default_subcategorias Sample.menu) 3 (35#2)
  = List.filter (fun r => Dashboard.notna (SALE_PRICE_USD r)) Sample.menu.
Proof.
  apply (default_widgets_keep_priced_rows Sample.menu 3 (35#2)).
  vm_compute. reflexivity.
Defined.

(** Deselecting every category, or every subcategory, or a range whose
    minimum is above its maximum, leaves no row. *)
Theorem empty_selection_keeps_nothing (df : DataFrame)
    (categorias subcategorias : list (option str)) (preco_min preco_max : Q) :
  categorias = [] \/ subcategorias = [] \/ (preco_max < preco_min)%Q ->
  df_filtrado df categorias subcategorias preco_min preco_max = [].
Proof.
  intros H. rewrite df_filtrado_filter. apply filter_none. intros r _.
  unfold keep. destruct H as [->|[->|H]].
  - reflexivity.
  - cbn [existsb]. now rewrite andb_false_r.
  - destruct (SALE_PRICE_USD r) as [p|]; [|now rewrite andb_false_r].
    destruct (Qle_bool preco_min p) eqn:E1, (Qle_bool p preco_max) eqn:E2;
      cbn [andb]; try now rewrite andb_false_r.
    apply Qle_bool_iff in E1, E2. exfalso.
    apply (Qlt_not_le _ _ H). now apply Qle_trans with p.
Qed.

Lemma empty_selection_keeps_nothing_witness :
  df_filtrado Sample.menu [] (default_subcategorias Sample.menu) 3 (35#2) = [].
Proof.
  apply (empty_selection_keeps_nothing Sample.menu). now left.
Defined.

(** Selecting more can only show more: if every selected category and
    subcategory stays selected and the price range is widened, the rows
    kept before are kept again, in the same order. *)
Theorem df_filtrado_monotone (df : DataFrame)
    (cats cats' subs subs' : list (option str)) (lo lo' hi hi' : Q) :
  incl cats cats' -> incl subs subs' -> (lo' <= lo)%Q -> (hi <= hi')%Q ->
  sublist (df_filtrado df cats subs lo hi) (df_filtrado df cats' subs' lo' hi').
Proof.
  intros Hc Hs Hlo Hhi. rewrite !df_filtrado_filter.
  apply filter_sublist_impl. intros r _ Hk.
  apply keep_satisfies in Hk as (H1 & H2 & p & Hp & H3 & H4).
  apply keep_satisfies. split; [now apply Hc|]. split; [now apply Hs|].
  exists p. split; [assumption|]. split.
  - now apply Qle_trans with lo.
  - now apply Qle_trans with hi.
Qed.

Lemma df_filtrado_monotone_witness :
  sublist
    (df_filtrado Sample.menu [Some (py "Dessert")] (default_subcategorias Sample.menu) 5 10)
    (df_filtrado Sample.menu (default_categorias Sample.menu)
       (default_subcategorias Sample.menu) 3 (35#2)).
Proof.
  apply df_filtrado_monotone.
  - intros v [<-|[]]. vm_compute. tauto.
  - apply incl_refl.
  - discriminate.
  - discriminate.
Defined.

(** Two selections can be applied in either order. *)
Theorem df_filtrado_commutes (df : DataFrame)
    (cats1 subs1 cats2 subs2 : list (option str)) (lo1 hi1 lo2 hi2 : Q) :
  df_filtrado (df_filtrado df cats1 subs1 lo1 hi1) cats2 subs2 lo2 hi2
  = df_filtrado (df_filtrado df cats2 subs2 lo2 hi2) cats1 subs1 lo1 hi1.
Proof. rewrite !df_filtrado_filter. apply filter_swap. Qed.

Lemma sum_cons_some (p : Q) (s : list (option Q)) :
  sum (Some p :: s) = (p + sum s)%Q.
Proof. reflexivity. Qed.



End Widgets.

(** ** The figures and charts of the dashboard *)

Section Figures.
Import Pandas Stats.

Lemma dropna_In (s : list (option Q)) (p : Q) : In p (dropna s) <-> In (Some p) s.
Proof.
  induction s as [|[x|] s IH]; simpl.
  - tauto.
  - rewrite IH. split; intros [H|H]; auto; left; congruence.
  - rewrite IH. split; [auto|]. intros [H|H]; [discriminate|assumption].
Qed.

Lemma count_succ (x : Q) (s : list (option Q)) :
  (inject_Z (Z.of_nat (count (Some x :: s))) == inject_Z (Z.of_nat (count s)) + 1)%Q.
Proof.
  unfold count. cbn [dropna length]. rewrite Nat2Z.inj_succ.
  unfold Z.succ. now rewrite inject_Z_plus.
Qed.

Lemma sum_lower (s : list (option Q)) (lo : Q) :
  (forall p, In (Some p) s -> (lo <= p)%Q) ->
  (lo * inject_Z (Z.of_nat (count s)) <= sum s)%Q.
Proof.
  induction s as [|[x|] s IH]; intros H.
  - unfold count. cbn [dropna length sum].
    change (inject_Z (Z.of_nat 0)) with 0%Q. lra.
  - assert (IH' := IH (fun p Hp => H p (or_intror Hp))).
    assert (Hx := H x (or_introl eq_refl)).
    rewrite count_succ. cbn [sum].
    generalize dependent (inject_Z (Z.of_nat (count s))). intros k IH'. nra.
  - apply IH. intros p Hp. apply H. now right.
Qed.

Lemma sum_upper (s : list (option Q)) (hi : Q) :
  (forall p, In (Some p) s -> (p <= hi)%Q) ->
  (sum s <= hi * inject_Z (Z.of_nat (count s)))%Q.
Proof.
  induction s as [|[x|] s IH]; intros H.
  - unfold count. cbn [dropna length sum].
    change (inject_Z (Z.of_nat 0)) with 0%Q. lra.
  - assert (IH' := IH (fun p Hp => H p (or_intror Hp))).
    assert (Hx := H x (or_introl eq_refl)).
    rewrite count_succ. cbn [sum].
    generalize dependent (inject_Z (Z.of_nat (count s))). intros k IH'. nra.
  - apply IH. intros p Hp. apply H. now right.
Qed.



(** *** The category counts *)

Lemma cell_eqb_sym (a b : option str) : cell_eqb a b = cell_eqb b a.
Proof.
  destruct (cell_eqb a b) eqn:E1, (cell_eqb b a) eqn:E2; try reflexivity.
  - apply cell_eqb_eq in E1. subst. rewrite (proj2 (cell_eqb_eq b b) eq_refl) in E2.
    discriminate.
  - apply cell_eqb_eq in E2. subst. rewrite (proj2 (cell_eqb_eq a a) eq_refl) in E1.
    discriminate.
Qed.

Lemma unique_NoDup (s : list (option str)) : List.NoDup (unique s).
Proof.
  induction s as [|x s IH]; simpl; constructor.
  - intros H. apply filter_In in H as [_ H].
    rewrite (proj2 (cell_eqb_eq x x) eq_refl) in H. discriminate.
  - now apply List.NoDup_filter.
Qed.

Lemma insert_count_perm (x : option str * nat) (l : list (option str * nat)) :
  Permutation (insert_count x l) (x :: l).
Proof.
  induction l as [|y l IH]; simpl; [reflexivity|].
  destruct (snd y <=? snd x)%nat; [reflexivity|].
  rewrite IH. apply perm_swap.
Qed.

Lemma sort_counts_perm (l : list (option str * nat)) :
  Permutation (sort_counts l) l.
Proof.
  induction l as [|x l IH]; simpl; [reflexivity|].
  rewrite insert_count_perm. now constructor.
Qed.

Lemma sort_counts_sorted (l : list (option str * nat)) :
  StronglySorted (fun a b => (snd b <= snd a)%nat) (sort_counts l).
Proof.
  induction l as [|x l IH]; simpl; [constructor|].
  induction IH as [|y m Hs IHs Hy]; simpl.
  - repeat constructor.
  - destruct (Nat.leb_spec (snd y) (snd x)).
    + constructor; [now constructor|]. constructor; [assumption|].
      eapply List.Forall_impl; [|exact Hy]. cbn. intros z Hz. lia.
    + constructor; [assumption|].
      apply (Permutation_Forall (Permutation_sym (insert_count_perm x m))).
      constructor; [lia|assumption].
Qed.

Lemma list_sum_perm (l l' : list nat) : Permutation l l' -> list_sum l = list_sum l'.
Proof.
  induction 1; simpl; lia.
Qed.

Lemma occurrences_cons (v w : option str) (t : list (option str)) :
  occurrences v (w :: t)
  = ((if cell_eqb v w then 1 else 0) + occurrences v t)%nat.
Proof.
  unfold occurrences. simpl. now destruct (cell_eqb v w).
Qed.

Lemma hits_NoDup (w : option str) (l : list (option str)) :
  List.NoDup l ->
  list_sum (List.map (fun v => if cell_eqb v w then 1%nat else 0%nat) l)
  = if existsb (cell_eqb w) l then 1%nat else 0%nat.
Proof.
  induction 1 as [|v l Hv Hl IH]; simpl; [reflexivity|].
  rewrite IH, (cell_eqb_sym w v). destruct (cell_eqb v w) eqn:E; simpl; [|reflexivity].
  apply cell_eqb_eq in E. subst v.
  destruct (existsb (cell_eqb w) l) eqn:Ex; [|reflexivity].
  apply existsb_cell_In in Ex. contradiction.
Qed.

Lemma list_sum_map_add {A} (f g : A -> nat) (l : list A) :
  list_sum (List.map (fun v => (f v + g v)%nat) l)
  = (list_sum (List.map f l) + list_sum (List.map g l))%nat.
Proof.
  induction l as [|x l IH]; simpl; lia.
Qed.

Lemma occurrences_total (l t : list (option str)) :
  List.NoDup l ->
  list_sum (List.map (fun v => occurrences v t) l)
  = length (List.filter (fun w => existsb (cell_eqb w) l) t).
Proof.
  intros Hl. induction t as [|w t IH].
  - unfold occurrences. simpl. clear Hl. induction l as [|v l IHl]; simpl; auto.
  - rewrite (List.map_ext _ _ (fun v => occurrences_cons v w t)).
    rewrite list_sum_map_add, IH, (hits_NoDup w l Hl). simpl.
    now destruct (existsb (cell_eqb w) l).
Qed.

(** The table behind the pie chart: it lists exactly the categories that
    occur in the frame, each with the number of rows that carry it, most
    frequent first; the numbers add up to the number of rows that have a
    category. *)
Theorem cat_count_counts_each_category (df : DataFrame) :
  (forall v n,
     In (v, n) (cat_count df) <->
     present v = true /\ In v (col ITEM_CATEGORY df)
     /\ n = occurrences v (col ITEM_CATEGORY df))
  /\ list_sum (List.map snd (cat_count df))
     = length (List.filter present (col ITEM_CATEGORY df))
  /\ StronglySorted (fun a b => (snd b <= snd a)%nat) (cat_count df)
  /\ List.NoDup (List.map fst (cat_count df)).
Proof.
  unfold cat_count, value_counts. set (s := col ITEM_CATEGORY df).
  set (l := List.filter present (unique s)).
  assert (Hl : List.NoDup l) by (apply List.NoDup_filter, unique_NoDup).
  assert (Hin : forall v, In v l <-> present v = true /\ In v s).
  { intros v. unfold l. rewrite filter_In, unique_In. tauto. }
  pose proof (sort_counts_perm (List.map (fun v => (v, occurrences v s)) l)) as Hp.
  split; [|split; [|split]].
  - intros v n. split.
    + intros H. apply (Permutation_in _ Hp) in H. apply in_map_iff in H
        as (v' & [= <- <-] & Hv). apply Hin in Hv. tauto.
    + intros (H1 & H2 & ->). apply (Permutation_in _ (Permutation_sym Hp)).
      apply in_map_iff. exists v. split; [reflexivity|]. now apply Hin.
  - rewrite (list_sum_perm _ _ (Permutation_map snd Hp)), List.map_map. cbn [snd].
    rewrite (occurrences_total l s Hl). f_equal.
    apply List.filter_ext_in. intros w Hw.
    destruct (present w) eqn:Epw.
    + apply existsb_cell_In, Hin. now split.
    + destruct (existsb (cell_eqb w) l) eqn:Ex; [|reflexivity].
      apply existsb_cell_In, Hin in Ex. destruct Ex. congruence.
  - apply sort_counts_sorted.
  - apply (Permutation_NoDup (Permutation_sym (Permutation_map fst Hp))).
    rewrite List.map_map. cbn [fst]. now rewrite List.map_id.
Qed.



End Figures.

(** ** The process over several runs *)

Section Process.
Import Pandas Csv Streamlit App.
Variable w : World.
Variable float_repr : Q -> str.

Ltac unfold_run :=
  cbv beta iota zeta delta
    [run_script script sidebar tab1_tab2 tab3 try_except bind ret raise stop
     st_show init_connection cache_resource secret snowflake_connect
     run_query run_query_body cache_data with_ pd_read_sql encode];
  cbn [resource_cache data_cache trace monotonic today screen
       show log clear_screen store_resource store_data at_time].

Ltac feed tac := repeat (unfold_run; tac).

Lemma keeps_data_bind {A B} (m : M A) (k : A -> M B) :
  keeps_data m -> (forall a, keeps_data (k a)) -> keeps_data (bind m k).
Proof.
  intros Hm Hk s r s' H. unfold bind in H.
  destruct (m s) as [[a|e|] s1] eqn:E; apply Hm in E.
  - apply Hk in H. congruence.
  - injection H as <- <-. exact E.
  - injection H as <- <-. exact E.
Qed.

Lemma keeps_data_secret (key : string) : keeps_data (secret w key).
Proof.
  intros s r s' H. unfold secret in H.
  destruct (secrets w !! key); now injection H as <- <-.
Qed.

Lemma keeps_data_connect (args : ConnectArgs) : keeps_data (snowflake_connect w args).
Proof.
  intros s r s' H. unfold snowflake_connect in H.
  destruct (connect w _ _ args); now injection H as <- <-.
Qed.

Lemma keeps_data_read_sql (q : str) (c : Conn) : keeps_data (pd_read_sql w q c).
Proof.
  intros s r s' H. unfold pd_read_sql in H.
  destruct (read_sql w _ _ c q); now injection H as <- <-.
Qed.

Lemma keeps_data_with {A} (c : Conn) (m : M A) :
  keeps_data m -> keeps_data (with_ w c m).
Proof.
  intros Hm s r s' H. unfold with_ in H.
  destruct (m s) as [[a|e|] s1] eqn:E; apply Hm in E;
    destruct (exit w _ _ c _); now injection H as <- <-.
Qed.

Lemma keeps_data_cache_resource (f : M Conn) :
  keeps_data f -> keeps_data (cache_resource f).
Proof.
  intros Hf s r s' H. unfold cache_resource in H.
  destruct (resource_cache s); [now injection H as <- <-|].
  destruct (f s) as [[a|e|] s1] eqn:E; apply Hf in E; now injection H as <- <-.
Qed.

(** The function behind [run_query] never writes to the query cache. *)
Lemma run_query_body_keeps_data (q : str) (s : State) (r : Result Frame) (s' : State) :
  run_query_body w q s = (r, s') -> data_cache s' = data_cache s.
Proof.
  revert s r s'. change (keeps_data (run_query_body w q)).
  unfold run_query_body, init_connection.
  repeat first
    [ apply keeps_data_bind; [|intros ?]
    | apply keeps_data_with
    | apply keeps_data_cache_resource
    | apply keeps_data_secret
    | apply keeps_data_connect
    | apply keeps_data_read_sql ].
Qed.

(** After a call that went to the warehouse and returned a frame, the
    frame is stored with the time of the call and a session is cached. *)
Lemma run_query_stored (s : State) (q : str) (v : Frame) (s1 : State) :
  served TTL s q = false ->
  run_query w q s = (Ok v, s1) ->
  data_cache s1 !! q = Some (monotonic s, v)
  /\ (exists c, resource_cache s1 = Some c)
  /\ monotonic s1 = monotonic s.
Proof.
  intros Hmiss H. rewrite (run_query_miss w s q Hmiss) in H.
  destruct (run_query_body w q s) as [[v0|e|] s0] eqn:Eb; try discriminate.
  injection H as -> <-.
  destruct (run_query_body_ok w s q v s0 Eb) as [[c Hc] _].
  destruct (keeps_clock_bind _ _ (keeps_clock_init_connection w)
              (fun conn => keeps_clock_with w conn _ (keeps_clock_read_sql w q conn))
              s _ _ Eb) as [Hm _].
  simpl. rewrite lookup_insert_eq, Hm. eauto.
Qed.

(** A query that fails is not cached: the query cache is left as it was,
    so the next call with the same text goes to the warehouse again. *)
Theorem run_query_failure_not_cached (s : State) (q : str) (e : Exn) (s' : State) :
  run_query w q s = (Raise e, s') ->
  data_cache s' = data_cache s /\ served TTL s' q = false.
Proof.
  intros H.
  assert (Hmiss : served TTL s q = false).
  { destruct (served TTL s q) eqn:E; [|reflexivity]. exfalso.
    unfold served in E. destruct (data_cache s !! q) as [[t v]|] eqn:El; [|discriminate].
    rewrite (run_query_hit w s q t v El (proj1 (fresh_lt _ _ _) E)) in H.
    discriminate. }
  rewrite (run_query_miss w s q Hmiss) in H.
  destruct (run_query_body w q s) as [[v0|e0|] s0] eqn:Eb; try discriminate.
  injection H as <- <-.
  pose proof (run_query_body_keeps_data q s _ _ Eb) as Hd.
  destruct (keeps_clock_bind _ _ (keeps_clock_init_connection w)
              (fun conn => keeps_clock_with w conn _ (keeps_clock_read_sql w q conn))
              s _ _ Eb) as [Hm _].
  split; [exact Hd|]. unfold served in *. now rewrite Hd, Hm.
Qed.

(** The cache is keyed by the exact query text: a call with one text
    leaves the entry of every other text as it was. *)
Theorem run_query_other_keys (s : State) (q q' : str) (r : Result Frame) (s' : State) :
  run_query w q s = (r, s') ->
  q' <> q ->
  data_cache s' !! q' = data_cache s !! q'.
Proof.
  intros H Hne.
  assert (Hc : forall r0 s0,
             match run_query_body w q s with
             | (Ok v, s1) => (Ok v, store_data q v s1)
             | other => other
             end = (r0, s0) -> data_cache s0 !! q' = data_cache s !! q').
  { intros r0 s0 H0.
    destruct (run_query_body w q s) as [[v0|e0|] s1] eqn:Eb;
      pose proof (run_query_body_keeps_data q s _ _ Eb) as Hd;
      injection H0 as <- <-; simpl; rewrite ?lookup_insert_ne by congruence;
      now rewrite Hd. }
  unfold run_query, cache_data in H.
  destruct (data_cache s !! q) as [[t v]|]; [|now apply Hc in H].
  destruct (fresh TTL (monotonic s) t); [|now apply Hc in H].
  now injection H as <- <-.
Qed.

(** A hit does not renew an entry: once 600 seconds have passed since the
    call that stored the result, the query is sent again, however recently
    the entry was last served. *)
Theorem ttl_not_renewed_by_hit (s : State) (q : str) (v : Frame) (s1 : State)
    (t1 t2 : Q) (d1 d2 : DateTime) :
  served TTL s q = false ->
  run_query w q s = (Ok v, s1) ->
  (t1 < monotonic s + 600)%Q ->
  (monotonic s + 600 <= t2)%Q ->
  let s2 := snd (run_query w q (at_time t1 d1 s1)) in
  s2 = at_time t1 d1 s1
  /\ executions (trace (snd (run_query w q (at_time t2 d2 s2))))
     = executions (trace s1) ++ [q].
Proof.
  intros Hmiss H Ht1 Ht2. cbv zeta.
  destruct (run_query_stored s q v s1 Hmiss H) as (Hst & [c Hc] & Hm).
  rewrite (run_query_hit w (at_time t1 d1 s1) q (monotonic s) v Hst Ht1).
  cbn [snd]. split; [reflexivity|].
  assert (Hexp : served TTL (at_time t2 d2 (at_time t1 d1 s1)) q = false).
  { unfold served. cbn [data_cache monotonic at_time]. rewrite Hst.
    now apply fresh_le. }
  rewrite (run_query_miss w _ q Hexp).
  destruct (run_query_body_connected w (at_time t2 d2 (at_time t1 d1 s1)) q c Hc)
    as (clean & r & Er).
  rewrite Er.
  assert (Ht : executions (trace (log (Exit c clean)
                 (log (ReadSql c q) (at_time t2 d2 (at_time t1 d1 s1)))))
               = executions (trace s1) ++ [q]).
  { simpl. rewrite !executions_app. simpl. now rewrite app_nil_r. }
  destruct r; exact Ht.
Qed.

(** Every query that goes to the warehouse is sent through the cached
    handle inside a [with] block: the handle's exit follows the read, and
    the handle stays the one that the next call gets. *)
Theorem run_query_exits_connection (s : State) (q : str) (c : Conn) :
  resource_cache s = Some c ->
  served TTL s q = false ->
  exists clean r s',
    run_query w q s = (r, s')
    /\ trace s' = trace s ++ [ReadSql c q; Exit c clean]
    /\ init_connection w s' = (Ok c, s').
Proof.
  intros Hc Hmiss. rewrite (run_query_miss w s q Hmiss).
  destruct (run_query_body_connected w s q c Hc) as (clean & r & Er).
  rewrite Er. exists clean.
  destruct r as [v|e|]; eexists; eexists; (split; [reflexivity|]);
    (split; [simpl; now rewrite <- app_assoc|]);
    apply cache_resource_hit; exact Hc.
Qed.

(** *** Whole runs *)

(** A secrets file that lacks one of the seven keys: the missing key is
    reported in the sidebar, the run stops, and the driver is not
    called. *)
Theorem missing_secret_stops (wd : Widgets) (s : State) :
  credentials w = None ->
  resource_cache s = None ->
  exists key s',
    run_script w float_repr wd s = (Stopped, s')
    /\ secrets w !! key = None
    /\ screen s' = [UiTitle; UiError (KeyError key)]
    /\ trace s' = trace s.
Proof.
  intros Hcr Hn. unfold credentials in Hcr.
  destruct (secrets w !! "user"%string) as [u|] eqn:E1;
    [|exists "user"%string; feed ltac:(first [rewrite Hn | rewrite E1]);
      eexists; repeat split; auto].
  destruct (secrets w !! "password"%string) as [p|] eqn:E2;
    [|exists "password"%string; feed ltac:(first [rewrite Hn | rewrite E1 | rewrite E2]);
      eexists; repeat split; auto].
  destruct (secrets w !! "account"%string) as [a|] eqn:E3;
    [|exists "account"%string;
      feed ltac:(first [rewrite Hn | rewrite E1 | rewrite E2 | rewrite E3]);
      eexists; repeat split; auto].
  destruct (secrets w !! "warehouse"%string) as [wh|] eqn:E4;
    [|exists "warehouse"%string;
      feed ltac:(first [rewrite Hn | rewrite E1 | rewrite E2 | rewrite E3 | rewrite E4]);
      eexists; repeat split; auto].
  destruct (secrets w !! "database"%string) as [d|] eqn:E5;
    [|exists "database"%string;
      feed ltac:(first [rewrite Hn | rewrite E1 | rewrite E2 | rewrite E3 | rewrite E4
                       | rewrite E5]);
      eexists; repeat split; auto].
  destruct (secrets w !! "schema"%string) as [sc|] eqn:E6;
    [|exists "schema"%string;
      feed ltac:(first [rewrite Hn | rewrite E1 | rewrite E2 | rewrite E3 | rewrite E4
                       | rewrite E5 | rewrite E6]);
      eexists; repeat split; auto].
  destruct (secrets w !! "role"%string) as [ro|] eqn:E7; [discriminate|].
  exists "role"%string.
  feed ltac:(first [rewrite Hn | rewrite E1 | rewrite E2 | rewrite E3 | rewrite E4
                   | rewrite E5 | rewrite E6 | rewrite E7]).
  eexists; repeat split; auto.
Qed.




End Process.

(** ** The export of any result *)

Section ResultExport.
Import Pandas Csv.



Lemma utf8_char_defined (c : Z) :
  (exists bs, utf8_char c = Some bs)
  <-> (0 <= c < 55296 \/ 57344 <= c < 1114112).
Proof.
  unfold utf8_char.
  destruct (Z.ltb_spec c 0); [split; [intros [bs H0]; discriminate|lia]|].
  destruct (Z.ltb_spec c 128); [split; [lia|eauto]|].
  destruct (Z.ltb_spec c 2048); [split; [lia|eauto]|].
  destruct (Z.ltb_spec c 65536).
  - destruct (Z.leb_spec 55296 c); destruct (Z.leb_spec c 57343); cbn [andb];
      split; try lia; eauto; intros [bs H5]; discriminate.
  - destruct (Z.ltb_spec c 1114112); split; try lia; eauto.
    intros [bs H4]; discriminate.
Qed.

Lemma utf8_char_bytes (c : Z) (bs : list Z) :
  utf8_char c = Some bs ->
  List.Forall (fun b => 0 <= b < 256) bs /\ (1 <= length bs <= 4)%nat.
Proof.
  unfold utf8_char.
  destruct (Z.ltb_spec c 0); [discriminate|].
  destruct (Z.ltb_spec c 128).
  { intros [= <-]. split; [repeat constructor; lia|simpl; lia]. }
  destruct (Z.ltb_spec c 2048).
  { intros [= <-]. split; [|simpl; lia].
    repeat constructor; Z.to_euclidean_division_equations; lia. }
  destruct (Z.ltb_spec c 65536).
  { destruct ((55296 <=? c) && (c <=? 57343)); [discriminate|].
    intros [= <-]. split; [|simpl; lia].
    repeat constructor; Z.to_euclidean_division_equations; lia. }
  destruct (Z.ltb_spec c 1114112); [|discriminate].
  intros [= <-]. split; [|simpl; lia].
  repeat constructor; Z.to_euclidean_division_equations; lia.
Qed.

(** Encoding succeeds exactly on texts made of Unicode scalar values: a
    surrogate or a number outside the code space makes it fail. *)
Theorem encode_utf8_defined_iff (s : str) :
  (exists data, encode_utf8 s = Some data)
  <-> List.Forall (fun c => 0 <= c < 55296 \/ 57344 <= c < 1114112) s.
Proof.
  induction s as [|c s IH]; simpl.
  - split; [constructor|eauto].
  - split.
    + intros [data H].
      destruct (utf8_char c) as [bs|] eqn:Ec; [|discriminate].
      destruct (encode_utf8 s) as [bs'|]; [|discriminate].
      constructor; [apply utf8_char_defined; eauto|apply IH; eauto].
    + intros H. apply List.Forall_cons_iff in H as [Hc Hs].
      apply utf8_char_defined in Hc as [bs Hbs]. apply IH in Hs as [bs' Hbs'].
      rewrite Hbs, Hbs'. eauto.
Qed.

(** The payload is a sequence of bytes, at least one and at most four for
    each character of the text. *)
Theorem encode_utf8_bytes (s : str) (data : list Z) :
  encode_utf8 s = Some data ->
  List.Forall (fun b => 0 <= b < 256) data
  /\ (length s <= length data <= 4 * length s)%nat.
Proof.
  revert data. induction s as [|c s IH]; intros data H; simpl in H.
  - injection H as <-. split; [constructor|simpl; lia].
  - destruct (utf8_char c) as [bs|] eqn:Ec; [|discriminate].
    destruct (encode_utf8 s) as [bs'|]; [|discriminate].
    injection H as <-. destruct (utf8_char_bytes c bs Ec) as [Hb Hl].
    destruct (IH bs' eq_refl) as [Hb' Hl']. split.
    + apply List.Forall_app. now split.
    + rewrite length_app. simpl. lia.
Qed.

Lemma encode_utf8_bytes_witness :
  List.Forall (fun b => 0 <= b < 256) [195; 169; 226; 130; 172; 240; 159; 152; 128; 65]
  /\ (length [233; 8364; 128512; 65]%Z
      <= length [195; 169; 226; 130; 172; 240; 159; 152; 128; 65]%Z
      <= 4 * length [233; 8364; 128512; 65]%Z)%nat.
Proof.
  apply (encode_utf8_bytes [233; 8364; 128512; 65]). reflexivity.
Defined.

End ResultExport.

(** ** The further properties on the sample processes *)

Lemma connection_failure_stops_witness :
  exists s',
    App.run_script Sample.unreachable Sample.whole_part Scenario.idle
      (Streamlit.boot 0 Sample.noon) = (App.Stopped, s')
    /\ Streamlit.screen s'
       = [Streamlit.UiTitle;
          Streamlit.UiError
            (Streamlit.DriverError (py "Incorrect username or password was specified"))]
    /\ Streamlit.resource_cache s' = None.
Proof.
  eapply (connection_failure_stops Sample.unreachable Sample.whole_part).
  - vm_compute. reflexivity.
  - reflexivity.
  - reflexivity.
Defined.

Lemma missing_secret_stops_witness :
  exists key s',
    App.run_script Scenario.no_password Sample.whole_part Scenario.idle
      (Streamlit.boot 0 Sample.noon) = (App.Stopped, s')
    /\ Streamlit.secrets Scenario.no_password !! key = None
    /\ Streamlit.screen s' = [Streamlit.UiTitle; Streamlit.UiError (Streamlit.KeyError key)]
    /\ Streamlit.trace s' = Streamlit.trace (Streamlit.boot 0 Sample.noon).
Proof.
  apply (missing_secret_stops Scenario.no_password Sample.whole_part).
  - vm_compute. reflexivity.
  - reflexivity.
Defined.

Lemma run_query_failure_not_cached_witness :
  Streamlit.data_cache
    (snd (App.run_query Sample.no_menu (py "SELECT 1") (Streamlit.boot 0 Sample.noon)))
  = Streamlit.data_cache (Streamlit.boot 0 Sample.noon)
  /\ Streamlit.served App.TTL
       (snd (App.run_query Sample.no_menu (py "SELECT 1") (Streamlit.boot 0 Sample.noon)))
       (py "SELECT 1") = false.
Proof.
  apply (run_query_failure_not_cached Sample.no_menu _ _
           (Streamlit.DriverError
              (py "SQL compilation error: Object 'MENU' does not exist"))).
  vm_compute. reflexivity.
Defined.

Lemma run_query_other_keys_witness :
  let s := snd (App.run_query Sample.healthy (py "SELECT 2")
                  (Streamlit.boot 0 Sample.noon)) in
  Streamlit.data_cache (snd (App.run_query Sample.healthy (py "SELECT 1") s))
    !! py "SELECT 2"
  = Streamlit.data_cache s !! py "SELECT 2".
Proof.
  cbv zeta.
  apply (run_query_other_keys Sample.healthy _ (py "SELECT 1") (py "SELECT 2")
           (Streamlit.Ok (Pandas.to_frame Sample.menu))).
  - vm_compute. reflexivity.
  - discriminate.
Defined.

Lemma ttl_not_renewed_by_hit_witness :
  let s1 := snd (App.run_query Sample.healthy (py "SELECT 1")
                   (Streamlit.boot 0 Sample.noon)) in
  let s2 := snd (App.run_query Sample.healthy (py "SELECT 1")
                   (Streamlit.at_time 500 Sample.noon s1)) in
  s2 = Streamlit.at_time 500 Sample.noon s1
  /\ App.executions
       (Streamlit.trace
          (snd (App.run_query Sample.healthy (py "SELECT 1")
                  (Streamlit.at_time 700 Sample.noon s2))))
     = App.executions (Streamlit.trace s1) ++ [py "SELECT 1"].
Proof.
  cbv zeta.
  apply (ttl_not_renewed_by_hit Sample.healthy (Streamlit.boot 0 Sample.noon)
           (py "SELECT 1") (Pandas.to_frame Sample.menu)).
  - reflexivity.
  - vm_compute. reflexivity.
  - reflexivity.
  - discriminate.
Defined.

Lemma run_query_exits_connection_witness :
  let s := snd (App.init_connection Sample.healthy (Streamlit.boot 0 Sample.noon)) in
  exists clean r s',
    App.run_query Sample.healthy (py "SELECT 1") s = (r, s')
    /\ Streamlit.trace s'
       = Streamlit.trace s
         ++ [Streamlit.ReadSql 1%nat (py "SELECT 1"); Streamlit.Exit 1%nat clean]
    /\ App.init_connection Sample.healthy s' = (Streamlit.Ok 1%nat, s').
Proof.
  cbv zeta. apply run_query_exits_connection.
  - vm_compute. reflexivity.
  - reflexivity.
Defined.





(** When the warehouse answers but leaving the [with] block fails, the
    caller gets the error of the exit, and the answer is neither returned
    nor cached. *)
Theorem exit_failure_loses_result (w : Streamlit.World) (s : Streamlit.State)
    (q : str) (c : Streamlit.Conn) (df : Pandas.Frame) (text : str) :
  Streamlit.resource_cache s = Some c ->
  Streamlit.served App.TTL s q = false ->
  Streamlit.read_sql w (Streamlit.trace s) (Streamlit.monotonic s) c q = inl df ->
  Streamlit.exit w (Streamlit.trace s ++ [Streamlit.ReadSql c q])
    (Streamlit.monotonic s) c true = Some text ->
  exists s',
    App.run_query w q s = (Streamlit.Raise (Streamlit.DriverError text), s')
    /\ Streamlit.data_cache s' = Streamlit.data_cache s
    /\ Streamlit.trace s'
       = Streamlit.trace s ++ [Streamlit.ReadSql c q; Streamlit.Exit c true].
Proof.
  intros Hc Hmiss Hr He. rewrite (run_query_miss w s q Hmiss).
  unfold App.run_query_body, Streamlit.bind, App.init_connection.
  rewrite (cache_resource_hit _ s c Hc).
  unfold App.with_, App.pd_read_sql. rewrite Hr. cbn [Streamlit.trace Streamlit.log
    Streamlit.monotonic]. rewrite He.
  eexists. split; [reflexivity|]. cbn. now rewrite <- app_assoc.
Qed.

Lemma exit_failure_loses_result_witness :
  let w := {| Streamlit.secrets := Sample.secrets_file;
              Streamlit.connect := fun _ _ _ => inl 1%nat;
              Streamlit.read_sql := fun _ _ _ _ => inl (Pandas.to_frame Sample.menu);
              Streamlit.exit := fun _ _ _ _ => Some (py "Connection is closed") |} in
  let s := snd (App.init_connection w (Streamlit.boot 0 Sample.noon)) in
  exists s',
    App.run_query w (py "SELECT 1") s
    = (Streamlit.Raise (Streamlit.DriverError (py "Connection is closed")), s')
    /\ Streamlit.data_cache s' = Streamlit.data_cache s
    /\ Streamlit.trace s'
       = Streamlit.trace s
         ++ [Streamlit.ReadSql 1%nat (py "SELECT 1"); Streamlit.Exit 1%nat true].
Proof.
  cbv zeta.
  apply (exit_failure_loses_result _ _ _ _ (Pandas.to_frame Sample.menu)).
  - vm_compute. reflexivity.
  - reflexivity.
  - reflexivity.
  - reflexivity.
Defined.
